(** * LoanDocCopilot backend: the text-analysis core of [main.py]

    A shallow embedding of the extraction, comparison and rule-checking
    functions of [main.py], with the properties of its specification proved
    about them.

    Python strings are modelled as Rocq [string]s, one [ascii] per code
    point, so the texts covered are those whose code points lie below 256
    (Latin-1).  On that range [str.lower] is a character-wise map and the
    character classes of [re] and [str.strip] are the tables below. *)

From Stdlib Require Import Bool Arith Lia List NArith Ascii String.
Import ListNotations.
Open Scope string_scope.

(** ** Python [str] *)

Module Str.

Definition code (c : ascii) : N := N_of_ascii c.

Definition between (lo hi c : ascii) : bool :=
  (code lo <=? code c)%N && (code c <=? code hi)%N.

(** Characters with a lowercase mapping: [A-Z], and U+00C0..U+00DE except
    the multiplication sign U+00D7. *)
Definition is_upper (c : ascii) : bool :=
  between "A" "Z" c
  || ((192 <=? code c)%N && (code c <=? 222)%N && negb (code c =? 215)%N).

Definition lower_char (c : ascii) : ascii :=
  if is_upper c then ascii_of_N (code c + 32) else c.

(** [s.lower()] *)
Fixpoint lower (s : string) : string :=
  match s with
  | "" => ""
  | String c s' => String (lower_char c) (lower s')
  end.

(** Whitespace as [str.strip] and the class [\s] see it:
    U+0009..U+000D, U+001C..U+0020, U+0085 and U+00A0. *)
Definition is_space (c : ascii) : bool :=
  ((9 <=? code c)%N && (code c <=? 13)%N)
  || ((28 <=? code c)%N && (code c <=? 32)%N)
  || (code c =? 133)%N
  || (code c =? 160)%N.

(** [str.isalnum] on one character. *)
Definition is_alnum (c : ascii) : bool :=
  between "0" "9" c || between "A" "Z" c || between "a" "z" c
  || (code c =? 170)%N || (code c =? 178)%N || (code c =? 179)%N
  || (code c =? 181)%N || (code c =? 185)%N || (code c =? 186)%N
  || ((188 <=? code c)%N && (code c <=? 190)%N)
  || ((192 <=? code c)%N && negb (code c =? 215)%N && negb (code c =? 247)%N).

Fixpoint lstrip (s : string) : string :=
  match s with
  | "" => ""
  | String c s' => if is_space c then lstrip s' else s
  end.

Fixpoint rstrip (s : string) : string :=
  match s with
  | "" => ""
  | String c s' =>
      match rstrip s' with
      | "" => if is_space c then "" else String c ""
      | r => String c r
      end
  end.

(** [s.strip()] *)
Definition strip (s : string) : string := rstrip (lstrip s).

Fixpoint startswith (p s : string) : bool :=
  match p, s with
  | "", _ => true
  | String _ _, "" => false
  | String a p', String b s' => (a =? b)%char && startswith p' s'
  end.

(** [k in s] for strings: [k] occurs in [s] as a contiguous run. *)
Fixpoint str_in (k s : string) : bool :=
  startswith k s
  || match s with
     | "" => false
     | String _ s' => str_in k s'
     end.

End Str.

(** ** Python [re]: the fragment the five patterns are written in *)

Module Re.

Inductive set_item : Type :=
| One (c : ascii)                (* a single character in a set *)
| Range (lo hi : ascii).         (* [lo-hi] *)

Inductive atom : Type :=
| Chr (c : ascii)                (* a literal character *)
| AnyChar                        (* .  *)
| Space                          (* \s *)
| Word                           (* \w *)
| CharSet (items : list set_item).  (* [...] *)

Inductive node : Type :=
| Rep (a : atom) (lo : nat) (hi : option nat)   (* greedy a{lo,hi} *)
| GroupOpen                                     (* (  *)
| GroupClose.                                   (* )  *)

Definition pattern := list node.

Definition one (a : atom) : node := Rep a 1 (Some 1).
Definition star (a : atom) : node := Rep a 0 None.
Definition plus (a : atom) : node := Rep a 1 None.
Definition times (a : atom) (n : nat) : node := Rep a n (Some n).

(** A run of literal characters. *)
Fixpoint lit (s : string) : pattern :=
  match s with
  | "" => []
  | String c s' => one (Chr c) :: lit s'
  end.

(** The characters [lo..hi], [n] of them starting at [lo]. *)
Fixpoint chars_from (lo : N) (n : nat) : list ascii :=
  match n with
  | O => []
  | S n' => ascii_of_N lo :: chars_from (lo + 1) n'
  end.

Definition range_chars (lo hi : ascii) : list ascii :=
  chars_from (Str.code lo) (N.to_nat (Str.code hi + 1 - Str.code lo)).

(** With IGNORECASE both the character and the members of the set are
    lowercased before they are compared. *)
Definition item_test (ignorecase : bool) (i : set_item) (c : ascii) : bool :=
  match i with
  | One d =>
      if ignorecase then (Str.lower_char c =? Str.lower_char d)%char
      else (c =? d)%char
  | Range lo hi =>
      if ignorecase
      then existsb (fun d => (Str.lower_char c =? Str.lower_char d)%char)
                   (range_chars lo hi)
      else Str.between lo hi c
  end.

Definition atom_test (ignorecase : bool) (a : atom) (c : ascii) : bool :=
  match a with
  | Chr d =>
      if ignorecase then (Str.lower_char c =? Str.lower_char d)%char
      else (c =? d)%char
  | AnyChar => negb (c =? "010")%char
  | Space => Str.is_space c
  | Word => Str.is_alnum c || (c =? "_")%char
  | CharSet items => existsb (fun i => item_test ignorecase i c) items
  end.

(** The text of group 1 as it is being matched. *)
Record capture : Type := { is_open : bool; text : string }.

Definition no_capture : capture := {| is_open := false; text := "" |}.

Definition consume (c : ascii) (st : capture) : capture :=
  if is_open st
  then {| is_open := true; text := text st ++ String c "" |}
  else st.

Definition under (hi : option nat) (n : nat) : bool :=
  match hi with
  | None => true
  | Some m => (n <? m)%nat
  end.

(** A greedy repetition [a{lo,hi}] followed by the rest of the pattern [k]:
    it first takes one more character and, when the rest then fails, goes on
    with the [n] characters it has, provided the lower bound is met. *)
Fixpoint rep (test : ascii -> bool) (lo : nat) (hi : option nat)
    (k : string -> capture -> option string)
    (n : nat) (s : string) (st : capture) {struct s} : option string :=
  let stop := if (lo <=? n)%nat then k s st else None in
  match s with
  | "" => stop
  | String c s' =>
      if under hi n && test c
      then match rep test lo hi k (S n) s' (consume c st) with
           | Some g => Some g
           | None => stop
           end
      else stop
  end.

(** Backtracking match of [p] at the start of the text; the result is the
    text of group 1. *)
Fixpoint match_here (ignorecase : bool) (p : pattern) {struct p}
  : string -> capture -> option string :=
  match p with
  | [] => fun _ st => Some (text st)
  | GroupOpen :: p' =>
      fun s _ => match_here ignorecase p' s {| is_open := true; text := "" |}
  | GroupClose :: p' =>
      fun s st =>
        match_here ignorecase p' s {| is_open := false; text := text st |}
  | Rep a lo hi :: p' =>
      rep (atom_test ignorecase a) lo hi (match_here ignorecase p') 0
  end.

(** [re.search(pattern, s, flags)]: the match at the leftmost position
    that has one, as the text of its group 1. *)
Fixpoint search (ignorecase : bool) (p : pattern) (s : string)
  : option string :=
  match match_here ignorecase p s no_capture with
  | Some g => Some g
  | None =>
      match s with
      | "" => None
      | String _ s' => search ignorecase p s'
      end
  end.

Definition IGNORECASE : bool := true.

End Re.

(** ** Python [dict] with [str] keys and values, in insertion order *)

Module Dict.

Definition dict := list (string * string).

(** [d.keys()] *)
Definition keys (d : dict) : list string := map fst d.

(** [d.get(k)]: [None] when the key is absent. *)
Fixpoint get (d : dict) (k : string) : option string :=
  match d with
  | [] => None
  | (k', v) :: d' => if (k' =? k)%string then Some v else get d' k
  end.

(** A dictionary holds each key once. *)
Definition wf (d : dict) : Prop := NoDup (keys d).

End Dict.

(** ** Python values that are a [str] or [None] *)

(** [a == b] *)
Definition py_eq (a b : option string) : bool :=
  match a, b with
  | None, None => true
  | Some x, Some y => (x =? y)%string
  | _, _ => false
  end.

(** [str(a)] *)
Definition py_str (a : option string) : string :=
  match a with
  | None => "None"
  | Some x => x
  end.

(** [a or d]: [None] and the empty string are falsy. *)
Definition py_or (a : option string) (d : string) : string :=
  match a with
  | None => d
  | Some "" => d
  | Some x => x
  end.

(** ** main.py *)

Record FieldChange : Type := {
  field : string;
  from_value : string;
  to_value : string;
  impact : string
}.

Record ESGCheckResult : Type := {
  rule_name : string;
  passed : bool;
  comment : string
}.

Record AnalyzeResponse : Type := {
  key_terms_v1 : Dict.dict;
  key_terms_v2 : Dict.dict;
  changes : list FieldChange;
  esg_checks : list ESGCheckResult
}.

(** [find_first(pattern, text, flags=re.IGNORECASE)] *)
Definition find_first (pattern : Re.pattern) (text : string) : option string :=
  match Re.search Re.IGNORECASE pattern text with
  | Some group1 => Some (Str.strip group1)
  | None => None
  end.

(** [contains_any(text, keywords)] *)
Definition contains_any (text : string) (keywords : list string) : bool :=
  let lower := Str.lower text in
  existsb (fun k => Str.str_in (Str.lower k) lower) keywords.

Import Re.

(** [r"Facility Amount:\s*([A-Z]{3}\s[0-9,\,\.]+)"] *)
Definition facility_amount_pattern : pattern :=
  (lit "Facility Amount:"
   ++ [ star Space; GroupOpen;
        times (CharSet [Range "A" "Z"]) 3; one Space;
        plus (CharSet [Range "0" "9"; One ","; One ","; One "."]);
        GroupClose ])%list.

(** [r"Interest Margin:\s*([0-9\.]+\s*%\s*per annum)"] *)
Definition margin_pattern : pattern :=
  (lit "Interest Margin:"
   ++ [ star Space; GroupOpen;
        plus (CharSet [Range "0" "9"; One "."]); star Space; one (Chr "%");
        star Space ]
   ++ lit "per annum"
   ++ [ GroupClose ])%list.

(** [r"Maturity Date:\s*([0-9]{1,2}\s+\w+\s+[0-9]{4})"] *)
Definition maturity_pattern : pattern :=
  (lit "Maturity Date:"
   ++ [ star Space; GroupOpen;
        Rep (CharSet [Range "0" "9"]) 1 (Some 2); plus Space; plus Word;
        plus Space; times (CharSet [Range "0" "9"]) 4;
        GroupClose ])%list.

(** [r"Borrower:\s*(.+)"] *)
Definition borrower_pattern : pattern :=
  (lit "Borrower:" ++ [ star Space; GroupOpen; plus AnyChar; GroupClose ])%list.

(** [r"Purpose:\s*(.+)"] *)
Definition purpose_pattern : pattern :=
  (lit "Purpose:" ++ [ star Space; GroupOpen; plus AnyChar; GroupClose ])%list.

Definition extract_key_terms (text : string) : Dict.dict :=
  let facility_amount := find_first facility_amount_pattern text in
  let margin := find_first margin_pattern text in
  let maturity := find_first maturity_pattern text in
  let borrower := find_first borrower_pattern text in
  let purpose := find_first purpose_pattern text in
  [ ("facility_amount", py_or facility_amount "Not detected");
    ("margin", py_or margin "Not detected");
    ("maturity_date", py_or maturity "Not detected");
    ("borrower", py_or borrower "Not detected");
    ("purpose", py_or purpose "Not detected") ].

(** The [impact] that the loop body of [compare_terms] settles on for
    [field]. *)
Definition impact_of (field : string) : string :=
  if (field =? "margin")%string
  then "Economic impact: margin changed (cost of debt)."
  else if (field =? "facility_amount")%string
  then "Economic impact: facility size changed."
  else if (field =? "maturity_date")%string
  then "Term/risk impact: maturity changed."
  else if (field =? "borrower")%string
  then "Counterparty details changed."
  else if (field =? "purpose")%string
  then "Use of proceeds changed."
  else "Change detected".

(** One turn of the loop of [compare_terms]. *)
Definition compare_step (v1 v2 : Dict.dict)
    (changes : list FieldChange) (field : string) : list FieldChange :=
  let old_val := Dict.get v1 field in
  let new_val := Dict.get v2 field in
  if py_eq old_val new_val then changes
  else
    (changes ++ [ {| field := field;
                    from_value := py_str old_val;
                    to_value := py_str new_val;
                    impact := impact_of field |} ])%list.

Definition compare_terms (v1 v2 : Dict.dict) : list FieldChange :=
  fold_left (compare_step v1 v2) (Dict.keys v1) [].

Definition run_esg_checks (text : string) : list ESGCheckResult :=
  [ {| rule_name := "Use of proceeds clearly defined";
       passed := contains_any text
                   [ "use of proceeds";
                     "proceeds of the facility";
                     "shall be applied towards" ];
       comment :=
         "Green loans should clearly define how proceeds will be used." |};
    {| rule_name := "Environmental / sustainability objectives described";
       passed := contains_any text
                   [ "green project";
                     "sustainability objective";
                     "environmental objective";
                     "renewable energy";
                     "energy efficiency";
                     "climate" ];
       comment :=
         "Looks for language around green or sustainability objectives." |};
    {| rule_name := "KPIs or performance targets included";
       passed := contains_any text
                   [ "key performance indicator";
                     "kpi";
                     "sustainability performance target";
                     "performance target" ];
       comment :=
         "Searches for sustainability-linked KPIs or performance targets." |};
    {| rule_name := "Ongoing reporting obligations present";
       passed := contains_any text
                   [ "reporting";
                     "annual report";
                     "sustainability report";
                     "periodic report" ];
       comment :=
         "Checks if the borrower is required to report on performance." |};
    {| rule_name := "External review / verification mentioned";
       passed := contains_any text
                   [ "second party opinion";
                     "external review";
                     "external verifier";
                     "assurance provider" ];
       comment :=
         "Looks for external ESG review or verification requirements." |} ].

(** [analyze_docs] from the two decoded texts on (decoding the uploaded
    PDF files is done by [pdfplumber]). *)
Definition analyze_docs (text_v1 text_v2 : string) : AnalyzeResponse :=
  let key_terms_v1 := extract_key_terms text_v1 in
  let key_terms_v2 := extract_key_terms text_v2 in
  let changes := compare_terms key_terms_v1 key_terms_v2 in
  let esg_checks := run_esg_checks text_v2 in
  {| key_terms_v1 := key_terms_v1;
     key_terms_v2 := key_terms_v2;
     changes := changes;
     esg_checks := esg_checks |}.

(** ** Notions the specification is worded in *)

(** Equal when letter case is ignored. *)
Definition same_ci (a b : string) : Prop := Str.lower a = Str.lower b.

(** [k] occurs in [t] as a contiguous run, compared without regard to
    letter case and at any position, inside a word or not. *)
Definition occurs_ci (k t : string) : Prop :=
  exists pre mid post, t = pre ++ mid ++ post /\ same_ci mid k.

(** The text does not go on with a character of class [test]. *)
Definition not_followed_by (test : ascii -> bool) (s : string) : Prop :=
  match s with
  | "" => True
  | String c _ => test c = false
  end.

(** Every character of [s] is of class [test]. *)
Fixpoint all (test : ascii -> bool) (s : string) : bool :=
  match s with
  | "" => true
  | String c s' => test c && all test s'
  end.

(** No whitespace at either end. *)
Definition trimmed (s : string) : Prop :=
  not_followed_by Str.is_space s
  /\ forall s' c, s = s' ++ String c "" -> Str.is_space c = false.

(** No occurrence of [k], in whatever letter case, starts within the first
    [n] characters of [t]. *)
Definition none_before (k t : string) (n : nat) : Prop :=
  forall pre mid post,
    t = pre ++ mid ++ post -> same_ci mid k -> n <= String.length pre.

(** [none_before] as a test. *)
Fixpoint none_beforeb (k t : string) (n : nat) {struct n} : bool :=
  match n with
  | O => true
  | S n' =>
      negb (Str.startswith (Str.lower k) (Str.lower t))
      && match t with
         | "" => true
         | String _ t' => none_beforeb k t' n'
         end
  end.

(** The capture after the characters of [a] have been matched. *)
Fixpoint consume_all (a : string) (st : capture) : capture :=
  match a with
  | "" => st
  | String c a' => consume_all a' (consume c st)
  end.

(** The upper bound of a repetition leaves room for [n] characters. *)
Definition room (hi : option nat) (n : nat) : Prop :=
  match hi with
  | None => True
  | Some m => n <= m
  end.

(** The characters of an amount, [[0-9,\,\.]]. *)
Definition amount_char (c : ascii) : bool :=
  Str.between "0" "9" c || (c =? ",")%char || (c =? ".")%char.

(** The labels the five patterns start with, in the order of the fields. *)
Definition labels : list string :=
  [ "Facility Amount:"; "Interest Margin:"; "Maturity Date:";
    "Borrower:"; "Purpose:" ].

(** The trigger phrases of the five rules, in the order of the battery. *)
Definition triggers : list (list string) :=
  [ [ "use of proceeds"; "proceeds of the facility";
      "shall be applied towards" ];
    [ "green project"; "sustainability objective"; "environmental objective";
      "renewable energy"; "energy efficiency"; "climate" ];
    [ "key performance indicator"; "kpi";
      "sustainability performance target"; "performance target" ];
    [ "reporting"; "annual report"; "sustainability report";
      "periodic report" ];
    [ "second party opinion"; "external review"; "external verifier";
      "assurance provider" ] ].

Definition not_detected : Dict.dict :=
  [ ("facility_amount", "Not detected");
    ("margin", "Not detected");
    ("maturity_date", "Not detected");
    ("borrower", "Not detected");
    ("purpose", "Not detected") ].

(** The pattern of each field, in the order of the fields. *)
Definition field_patterns : list (string * pattern) :=
  [ ("facility_amount", facility_amount_pattern);
    ("margin", margin_pattern);
    ("maturity_date", maturity_pattern);
    ("borrower", borrower_pattern);
    ("purpose", purpose_pattern) ].

(** The field's value differs between the two mappings. *)
Definition differs (v1 v2 : Dict.dict) (f : string) : bool :=
  negb (py_eq (Dict.get v1 f) (Dict.get v2 f)).

(** The change reported for a field. *)
Definition change_of (v1 v2 : Dict.dict) (f : string) : FieldChange :=
  {| field := f;
     from_value := py_str (Dict.get v1 f);
     to_value := py_str (Dict.get v2 f);
     impact := impact_of f |}.

(** ** Further parts of main.py and notions for their properties *)

(** [extract_text_from_pdf], from the pages on: [pages] holds what
    [page.extract_text()] returns for each page of the opened file, a text
    or [None]. *)
Definition extract_text_from_pdf (pages : list (option string)) : string :=
  String.concat (String "010" "") (map (fun page => py_or page "") pages).

(** The body of [analyze_docs] with the texts taken from the pages of the
    two uploads. *)
Definition analyze_uploads (pages_v1 pages_v2 : list (option string))
  : AnalyzeResponse :=
  let text_v1 := extract_text_from_pdf pages_v1 in
  let text_v2 := extract_text_from_pdf pages_v2 in
  analyze_docs text_v1 text_v2.

(** [k] occurs in [t] verbatim. *)
Definition occurs (k t : string) : Prop :=
  exists pre post, t = pre ++ k ++ post.

(** The change read in the other direction. *)
Definition reversed (c : FieldChange) : FieldChange :=
  {| field := field c;
     from_value := to_value c;
     to_value := from_value c;
     impact := impact c |}.

Definition is_letter (c : ascii) : bool :=
  Str.between "A" "Z" c || Str.between "a" "z" c.

Definition is_digit (c : ascii) : bool := Str.between "0" "9" c.

Definition not_newline (c : ascii) : bool := negb (c =? "010")%char.

(** The longest run of characters of class [test] at the start of [s]. *)
Fixpoint run_of (test : ascii -> bool) (s : string) : string :=
  match s with
  | "" => ""
  | String c s' => if test c then String c (run_of test s') else ""
  end.

(** The characters of a rate, [[0-9\.]]. *)
Definition rate_char (c : ascii) : bool := is_digit c || (c =? ".")%char.

(** The characters of class [\w]. *)
Definition word_char (c : ascii) : bool := Str.is_alnum c || (c =? "_")%char.

(** The five impact messages of the fields of [extract_key_terms]. *)
Definition field_impacts : list string :=
  [ "Economic impact: facility size changed.";
    "Economic impact: margin changed (cost of debt).";
    "Term/risk impact: maturity changed.";
    "Counterparty details changed.";
    "Use of proceeds changed." ].

(** Settles that the keys of a dictionary written out are distinct. *)
Ltac distinct_keys :=
  unfold Dict.wf; simpl; repeat constructor; simpl; intuition discriminate.

(** ** Strings *)

Section StringFacts.

Lemma append_assoc (a b c : string) : (a ++ b) ++ c = a ++ (b ++ c).
Proof. induction a as [|x a IH]; simpl; [reflexivity | now rewrite IH]. Qed.

Lemma append_empty_r (a : string) : a ++ "" = a.
Proof. induction a as [|x a IH]; simpl; [reflexivity | now rewrite IH]. Qed.

Lemma length_append (a b : string) :
  String.length (a ++ b) = String.length a + String.length b.
Proof. induction a as [|x a IH]; simpl; [reflexivity | now rewrite IH]. Qed.

Lemma lower_append (a b : string) :
  Str.lower (a ++ b) = Str.lower a ++ Str.lower b.
Proof. induction a as [|x a IH]; simpl; [reflexivity | now rewrite IH]. Qed.

Lemma lower_length (a : string) : String.length (Str.lower a) = String.length a.
Proof. induction a as [|x a IH]; simpl; [reflexivity | now rewrite IH]. Qed.

(** A text whose lowercase form splits in two splits the same way. *)
Lemma lower_split (t a b : string) :
  Str.lower t = a ++ b ->
  exists x y, t = x ++ y /\ Str.lower x = a /\ Str.lower y = b.
Proof.
  revert t; induction a as [|c a IH]; intros t H.
  - exists "", t. auto.
  - destruct t as [|d t]; [discriminate|].
    simpl in H. injection H as Hc Ht.
    destruct (IH _ Ht) as (x & y & -> & Hx & Hy).
    exists (String d x), y. simpl. now rewrite Hc, Hx.
Qed.

Lemma startswith_spec (p s : string) :
  Str.startswith p s = true <-> exists post, s = p ++ post.
Proof.
  revert s; induction p as [|a p IH]; intros s; simpl.
  - split; [exists s; reflexivity | reflexivity].
  - destruct s as [|b s].
    + split; [discriminate | intros [post H]; discriminate].
    + rewrite andb_true_iff, Ascii.eqb_eq, IH. split.
      * intros [-> [post ->]]. now exists post.
      * intros [post H]. injection H as -> ->. split; [reflexivity|now exists post].
Qed.

Lemma str_in_spec (k s : string) :
  Str.str_in k s = true <-> exists pre post, s = pre ++ k ++ post.
Proof.
  induction s as [|c s IH].
  - simpl. rewrite orb_false_r, startswith_spec. split.
    + intros [post H]. now exists "", post.
    + intros (pre & post & H). destruct pre; [now exists post | discriminate].
  - cbn [Str.str_in]. rewrite orb_true_iff, startswith_spec, IH. split.
    + intros [[post H] | (pre & post & H)].
      * now exists "", post.
      * exists (String c pre), post. simpl. now rewrite H.
    + intros (pre & post & H). destruct pre as [|d pre].
      * left. now exists post.
      * right. simpl in H. injection H as _ H. now exists pre, post.
Qed.

(** The test [k.lower() in text.lower()] finds exactly the occurrences of
    [k] in [text] up to letter case. *)
Lemma lower_in_spec (k t : string) :
  Str.str_in (Str.lower k) (Str.lower t) = true <-> occurs_ci k t.
Proof.
  rewrite str_in_spec. unfold occurs_ci, same_ci. split.
  - intros (pre & post & H).
    destruct (lower_split _ _ _ H) as (x & y & -> & Hx & Hy).
    destruct (lower_split _ _ _ Hy) as (m & z & -> & Hm & Hz).
    now exists x, m, z.
  - intros (pre & mid & post & -> & H).
    exists (Str.lower pre), (Str.lower post).
    now rewrite !lower_append, H.
Qed.

Lemma contains_any_spec (t : string) (keywords : list string) :
  contains_any t keywords = true <->
  exists k, In k keywords /\ occurs_ci k t.
Proof.
  unfold contains_any. rewrite existsb_exists.
  split; intros (k & Hk & H); exists k; split; auto; now apply lower_in_spec.
Qed.

End StringFacts.

(** ** The matcher *)

Section MatcherFacts.

Variable ignorecase : bool.
Variable p : pattern.

Lemma rep_one (test : ascii -> bool) k c s st :
  rep test 1 (Some 1) k 0 (String c s) st
  = if test c then k s (consume c st) else None.
Proof.
  simpl. destruct (test c); [|reflexivity].
  destruct s; simpl; destruct (k _ _); reflexivity.
Qed.

(** [search] returns the match at the first position that has one. *)
Lemma search_some (s g : string) :
  search ignorecase p s = Some g <->
  exists pre suf,
    s = pre ++ suf
    /\ match_here ignorecase p suf no_capture = Some g
    /\ forall pre' suf',
         s = pre' ++ suf' -> String.length pre' < String.length pre ->
         match_here ignorecase p suf' no_capture = None.
Proof.
  induction s as [|c s IH]; simpl.
  - destruct (match_here ignorecase p "" no_capture) as [g'|] eqn:E; split.
    + intros [= ->]. exists "", "". repeat split; auto. simpl; lia.
    + intros (pre & suf & H & Hm & _).
      destruct pre; [|discriminate]. simpl in H; subst suf. congruence.
    + discriminate.
    + intros (pre & suf & H & Hm & _).
      destruct pre; [|discriminate]. simpl in H; subst suf. congruence.
  - destruct (match_here ignorecase p (String c s) no_capture) as [g'|] eqn:E.
    + split.
      * intros [= ->]. exists "", (String c s). repeat split; auto. simpl; lia.
      * intros (pre & suf & H & Hm & Hleft). destruct pre as [|d pre].
        -- simpl in H; subst suf. congruence.
        -- specialize (Hleft "" (String c s) eq_refl). simpl in Hleft.
           rewrite Hleft in E by lia. discriminate.
    + rewrite IH. split.
      * intros (pre & suf & -> & Hm & Hleft).
        exists (String c pre), suf. repeat split; auto.
        intros [|d pre'] suf' H Hlen.
        -- simpl in H; subst suf'. exact E.
        -- simpl in H. injection H as _ H. apply (Hleft pre' suf' H).
           simpl in Hlen; lia.
      * intros (pre & suf & H & Hm & Hleft). destruct pre as [|d pre].
        -- simpl in H; subst suf. congruence.
        -- simpl in H. injection H as _ ->.
           exists pre, suf. repeat split; auto.
           intros pre' suf' H Hlen.
           apply (Hleft (String c pre') suf'); simpl; [now rewrite H | lia].
Qed.

Lemma search_none (s : string) :
  search ignorecase p s = None <->
  forall pre suf, s = pre ++ suf ->
                  match_here ignorecase p suf no_capture = None.
Proof.
  induction s as [|c s IH]; simpl.
  - destruct (match_here ignorecase p "" no_capture) eqn:E; split.
    + discriminate.
    + intros H. now rewrite (H "" "" eq_refl) in E.
    + intros _ pre suf H. destruct pre; [|discriminate]. simpl in H; now subst suf.
    + reflexivity.
  - destruct (match_here ignorecase p (String c s) no_capture) eqn:E.
    + split; [discriminate|].
      intros H. now rewrite (H "" (String c s) eq_refl) in E.
    + rewrite IH. split.
      * intros H [|d pre] suf Hs.
        -- simpl in Hs; now subst suf.
        -- simpl in Hs. injection Hs as _ Hs. now apply (H pre).
      * intros H pre suf ->. now apply (H (String c pre) suf).
Qed.

(** Positions before the first match can be dropped from the text. *)
Lemma search_skip (skipped rest : string) :
  (forall pre suf, skipped = pre ++ suf -> suf <> "" ->
                   match_here ignorecase p (suf ++ rest) no_capture = None) ->
  search ignorecase p (skipped ++ rest) = search ignorecase p rest.
Proof.
  induction skipped as [|c skipped IH]; intros H; [reflexivity|].
  assert (E : match_here ignorecase p (String c skipped ++ rest) no_capture
              = None) by (apply (H ""); [reflexivity | discriminate]).
  simpl in E |- *. rewrite E.
  apply IH. intros pre suf -> Hne. now apply (H (String c pre) suf).
Qed.

End MatcherFacts.

Section LiteralPrefix.

(** A match of a pattern that starts with the literal run [l] starts with
    [l] up to letter case. *)
Lemma match_lit_inv (l : string) (p : pattern) (s g : string) st :
  match_here IGNORECASE (lit l ++ p)%list s st = Some g ->
  exists mid rest st',
    s = mid ++ rest /\ same_ci mid l
    /\ match_here IGNORECASE p rest st' = Some g.
Proof.
  revert s st; induction l as [|c l IH]; intros s st H.
  - exists "", s, st. repeat split; auto.
  - destruct s as [|d s]; [discriminate|].
    cbn [lit app match_here] in H. unfold one in H. rewrite rep_one in H.
    cbn [atom_test IGNORECASE] in H.
    destruct (Ascii.eqb_spec (Str.lower_char d) (Str.lower_char c)) as [E|];
      [|discriminate].
    destruct (IH _ _ H) as (mid & rest & st' & -> & Hci & Hm).
    exists (String d mid), rest, st'. repeat split; auto.
    unfold same_ci in *. simpl. now rewrite E, Hci.
Qed.

Lemma search_lit_occurs (l : string) (p : pattern) (t g : string) :
  search IGNORECASE (lit l ++ p)%list t = Some g -> occurs_ci l t.
Proof.
  intros H. apply search_some in H.
  destruct H as (pre & suf & -> & Hm & _).
  destruct (match_lit_inv _ _ _ _ _ Hm) as (mid & rest & _ & -> & Hci & _).
  now exists pre, mid, rest.
Qed.

Lemma find_first_absent (l : string) (p : pattern) (t : string) :
  ~ occurs_ci l t -> find_first (lit l ++ p)%list t = None.
Proof.
  intros H. unfold find_first.
  destruct (search IGNORECASE (lit l ++ p)%list t) eqn:E; [|reflexivity].
  exfalso. eauto using search_lit_occurs.
Qed.

End LiteralPrefix.

(** ** Dictionaries and the comparison loop *)

Section CompareFacts.

Lemma py_eq_spec (a b : option string) : py_eq a b = true <-> a = b.
Proof.
  destruct a as [x|], b as [y|]; simpl; try (split; congruence).
  rewrite String.eqb_eq. split; congruence.
Qed.

Lemma differs_spec (v1 v2 : Dict.dict) (f : string) :
  differs v1 v2 f = true <-> Dict.get v1 f <> Dict.get v2 f.
Proof.
  unfold differs. rewrite negb_true_iff, <- not_true_iff_false, py_eq_spec.
  reflexivity.
Qed.

Lemma get_some_in (d : Dict.dict) (k v : string) :
  Dict.get d k = Some v -> In k (Dict.keys d).
Proof.
  induction d as [|[k' v'] d IH]; simpl; [discriminate|].
  destruct (String.eqb_spec k' k); auto.
Qed.

Lemma get_in_some (d : Dict.dict) (k : string) :
  In k (Dict.keys d) -> exists v, Dict.get d k = Some v.
Proof.
  induction d as [|[k' v'] d IH]; simpl; [contradiction|].
  destruct (String.eqb_spec k' k); eauto.
  intros [H|H]; [contradiction | auto].
Qed.

Variables v1 v2 : Dict.dict.

(** The loop appends one change per differing key, in the order of the
    keys it walks through. *)
Lemma compare_loop (ks : list string) (acc : list FieldChange) :
  fold_left (compare_step v1 v2) ks acc
  = (acc ++ map (change_of v1 v2) (filter (differs v1 v2) ks))%list.
Proof.
  revert acc; induction ks as [|k ks IH]; intros acc; simpl.
  - now rewrite app_nil_r.
  - rewrite IH. unfold compare_step at 1, differs at 2.
    destruct (py_eq (Dict.get v1 k) (Dict.get v2 k)); simpl; [reflexivity|].
    now rewrite <- app_assoc.
Qed.

Lemma compare_terms_eq :
  compare_terms v1 v2
  = map (change_of v1 v2) (filter (differs v1 v2) (Dict.keys v1)).
Proof. unfold compare_terms. now rewrite compare_loop. Qed.

Lemma compare_terms_fields :
  map field (compare_terms v1 v2) = filter (differs v1 v2) (Dict.keys v1).
Proof.
  rewrite compare_terms_eq, map_map. simpl. apply map_id.
Qed.

Lemma compare_terms_in (c : FieldChange) :
  In c (compare_terms v1 v2) <->
  In (field c) (Dict.keys v1) /\ differs v1 v2 (field c) = true
  /\ c = change_of v1 v2 (field c).
Proof.
  rewrite compare_terms_eq, in_map_iff. split.
  - intros (f & <- & H). apply filter_In in H. simpl. tauto.
  - intros (Hk & Hd & Hc). exists (field c). split; [auto|].
    apply filter_In. tauto.
Qed.

End CompareFacts.

(** ** Term Differ *)

(** C1.  For a baseline [B] (a dictionary, so with each key once) and a
    revised mapping [R], the fields of [compare_terms B R] are the keys of
    [B] whose values differ, in the order of [B]'s keys: a key whose values
    differ is reported exactly once and a key whose values agree is not
    reported.  Each change carries the baseline value as [from_value], the
    revised value as [to_value], and the [impact] looked up from the field
    name alone: the five fixed messages, and "Change detected" for any other
    name. *)
Theorem compare_terms_complete (B R : Dict.dict) :
  Dict.wf B ->
  map field (compare_terms B R)
    = filter (fun f => negb (py_eq (Dict.get B f) (Dict.get R f)))
             (Dict.keys B)
  /\ (forall f, In f (Dict.keys B) -> Dict.get B f <> Dict.get R f ->
                count_occ string_dec (map field (compare_terms B R)) f = 1)
  /\ (forall f, Dict.get B f = Dict.get R f ->
                count_occ string_dec (map field (compare_terms B R)) f = 0)
  /\ (forall c, In c (compare_terms B R) ->
        (exists b, Dict.get B (field c) = Some b /\ from_value c = b)
        /\ to_value c = py_str (Dict.get R (field c))
        /\ (forall r, Dict.get R (field c) = Some r -> to_value c = r)
        /\ impact c = impact_of (field c))
  /\ impact_of "margin" = "Economic impact: margin changed (cost of debt)."
  /\ impact_of "facility_amount" = "Economic impact: facility size changed."
  /\ impact_of "maturity_date" = "Term/risk impact: maturity changed."
  /\ impact_of "borrower" = "Counterparty details changed."
  /\ impact_of "purpose" = "Use of proceeds changed."
  /\ (forall f,
        ~ In f ["margin"; "facility_amount"; "maturity_date"; "borrower";
                "purpose"] ->
        impact_of f = "Change detected").
Proof.
  intros Hwf.
  assert (Hnd : NoDup (map field (compare_terms B R))).
  { rewrite compare_terms_fields. now apply NoDup_filter. }
  split; [apply compare_terms_fields|].
  split.
  { intros f Hin Hne.
    assert (Hf : In f (map field (compare_terms B R))).
    { rewrite compare_terms_fields. apply filter_In.
      split; [exact Hin | now apply differs_spec]. }
    apply (count_occ_In string_dec) in Hf.
    pose proof (proj1 (NoDup_count_occ string_dec _) Hnd f). lia. }
  split.
  { intros f Heq. apply count_occ_not_In.
    rewrite compare_terms_fields, filter_In. intros [_ Hd].
    apply differs_spec in Hd. contradiction. }
  split.
  { intros c Hc. apply compare_terms_in in Hc.
    destruct Hc as (Hk & _ & ->). simpl.
    destruct (get_in_some _ _ Hk) as [b Hb].
    repeat split.
    - exists b. now rewrite Hb.
    - intros r ->. reflexivity. }
  repeat (split; [reflexivity|]).
  intros f Hf. simpl in Hf. unfold impact_of.
  repeat match goal with
         | |- context [String.eqb f ?k] =>
             destruct (String.eqb_spec f k); [subst f; exfalso; intuition congruence|]
         end.
  reflexivity.
Qed.

Lemma compare_terms_complete_witness :
  let B := [("margin", "2.50% per annum"); ("borrower", "GreenTech")] in
  let R := [("margin", "3.00% per annum"); ("borrower", "GreenTech")] in
  Dict.wf B
  /\ map field (compare_terms B R) = ["margin"]
  /\ count_occ string_dec (map field (compare_terms B R)) "margin" = 1.
Proof.
  intros B R.
  assert (Hwf : Dict.wf B) by distinct_keys.
  split; [exact Hwf|].
  destruct (compare_terms_complete B R Hwf) as (Hfields & Hone & _).
  split; [exact Hfields|].
  apply Hone; [simpl; auto | discriminate].
Defined.

(** C5.  Comparing a mapping with itself reports nothing; and a field whose
    value is "Not detected" on both sides is not reported. *)
Theorem compare_terms_same (F : Dict.dict) :
  compare_terms F F = []
  /\ (forall B R f,
        Dict.get B f = Some "Not detected" ->
        Dict.get R f = Some "Not detected" ->
        ~ In f (map field (compare_terms B R))).
Proof.
  split.
  - rewrite compare_terms_eq.
    replace (filter (differs F F) (Dict.keys F)) with (@nil string);
      [reflexivity|].
    symmetry. induction (Dict.keys F) as [|k ks IH]; simpl; [reflexivity|].
    unfold differs at 1.
    now rewrite (proj2 (py_eq_spec _ _) eq_refl).
  - intros B R f HB HR. rewrite compare_terms_fields, filter_In.
    intros [_ Hd]. apply differs_spec in Hd. congruence.
Qed.

Lemma compare_terms_same_witness :
  let B := [("margin", "Not detected"); ("purpose", "Refinancing")] in
  let R := [("purpose", "Working capital"); ("margin", "Not detected")] in
  compare_terms B B = []
  /\ ~ In "margin" (map field (compare_terms B R)).
Proof.
  intros B R. split.
  - exact (proj1 (compare_terms_same B)).
  - apply (proj2 (compare_terms_same B) B R "margin"); reflexivity.
Defined.

(** C10.  A field of the baseline that the revised mapping lacks is
    reported, with the baseline value as [from_value] and the text "None"
    (which is not "Not detected") as [to_value]; a field that only the
    revised mapping has is never reported. *)
Theorem compare_terms_missing (B R : Dict.dict) :
  (forall f b,
      Dict.get B f = Some b -> Dict.get R f = None ->
      In {| field := f; from_value := b; to_value := "None";
            impact := impact_of f |} (compare_terms B R)
      /\ (forall c, In c (compare_terms B R) -> field c = f ->
                    to_value c = "None" /\ to_value c <> "Not detected"))
  /\ (forall f,
        ~ In f (Dict.keys B) -> ~ In f (map field (compare_terms B R))).
Proof.
  split.
  - intros f b HB HR. split.
    + apply compare_terms_in. simpl. split; [eauto using get_some_in|].
      split; [apply differs_spec; congruence|].
      unfold change_of. now rewrite HB, HR.
    + intros c Hc <-. apply compare_terms_in in Hc.
      destruct Hc as (_ & _ & ->). simpl. rewrite HR. simpl.
      split; [reflexivity | discriminate].
  - intros f Hf. rewrite compare_terms_fields, filter_In. tauto.
Qed.

Lemma compare_terms_missing_witness :
  let B := [("margin", "2.50% per annum")] in
  let R := [("covenant", "none")] in
  In {| field := "margin"; from_value := "2.50% per annum";
        to_value := "None";
        impact := "Economic impact: margin changed (cost of debt)." |}
     (compare_terms B R)
  /\ ~ In "covenant" (map field (compare_terms B R)).
Proof.
  intros B R. split.
  - apply (proj1 (compare_terms_missing B R) "margin" "2.50% per annum");
      reflexivity.
  - apply (proj2 (compare_terms_missing B R) "covenant").
    simpl. intuition discriminate.
Defined.

(** ** Rule Checker *)

(** C2.  Whatever the text, [run_esg_checks] returns five results, whose
    rule names and comments are the same fixed texts in the same order; only
    [passed] is computed from the text. *)
Theorem esg_checks_fixed (T : string) :
  List.length (run_esg_checks T) = 5
  /\ map rule_name (run_esg_checks T)
     = [ "Use of proceeds clearly defined";
         "Environmental / sustainability objectives described";
         "KPIs or performance targets included";
         "Ongoing reporting obligations present";
         "External review / verification mentioned" ]
  /\ map comment (run_esg_checks T)
     = [ "Green loans should clearly define how proceeds will be used.";
         "Looks for language around green or sustainability objectives.";
         "Searches for sustainability-linked KPIs or performance targets.";
         "Checks if the borrower is required to report on performance.";
         "Looks for external ESG review or verification requirements." ]
  /\ (forall T',
        map rule_name (run_esg_checks T') = map rule_name (run_esg_checks T)
        /\ map comment (run_esg_checks T') = map comment (run_esg_checks T))
  /\ map passed (run_esg_checks T) = map (contains_any T) triggers.
Proof. repeat split. Qed.

(** C3.  Each rule passes exactly when one of its trigger phrases occurs in
    the text, compared without regard to letter case and at any position;
    so the third rule passes on every text that has "kpi" in it in any
    case, also inside a longer word. *)
Theorem esg_passed_iff_trigger (T : string) :
  Forall2
    (fun r ks => passed r = true <-> exists k, In k ks /\ occurs_ci k T)
    (run_esg_checks T) triggers
  /\ (forall pre mid post,
        same_ci mid "kpi" ->
        map passed (skipn 2 (firstn 3 (run_esg_checks (pre ++ mid ++ post))))
        = [true]).
Proof.
  split.
  - unfold run_esg_checks, triggers.
    repeat (constructor; [exact (contains_any_spec _ _)|]). constructor.
  - intros pre mid post H. unfold run_esg_checks.
    cbn [firstn skipn map passed]. f_equal.
    apply contains_any_spec. exists "kpi". split; [simpl; auto|].
    now exists pre, mid, post.
Qed.

Lemma esg_passed_iff_trigger_witness :
  same_ci "KpI" "kpi"
  /\ map passed (skipn 2 (firstn 3 (run_esg_checks ("s" ++ "KpI" ++ "s"))))
     = [true].
Proof.
  split; [reflexivity|].
  apply (proj2 (esg_passed_iff_trigger "") "s" "KpI" "s"). reflexivity.
Defined.

(** ** Pipeline Orchestrator *)

(** C4.  [analyze_docs] returns the key terms of both texts, the comparison
    of the two, and the checks of the second text; the checks do not depend
    on the first text. *)
Theorem analyze_docs_composition (text_v1 text_v2 : string) :
  analyze_docs text_v1 text_v2
  = {| key_terms_v1 := extract_key_terms text_v1;
       key_terms_v2 := extract_key_terms text_v2;
       changes := compare_terms (extract_key_terms text_v1)
                                (extract_key_terms text_v2);
       esg_checks := run_esg_checks text_v2 |}
  /\ (forall other_v1,
        esg_checks (analyze_docs other_v1 text_v2)
        = esg_checks (analyze_docs text_v1 text_v2)).
Proof. split; reflexivity. Qed.


(** ** Field Extractor *)

Lemma py_or_cases (a : option string) (d : string) :
  py_or a d = d \/ (a = Some (py_or a d) /\ py_or a d <> "").
Proof.
  destruct a as [[|c s]|]; simpl; auto. right. split; [reflexivity|discriminate].
Qed.

Lemma extract_key_terms_get (T k v : string) :
  Dict.get (extract_key_terms T) k = Some v ->
  exists pat, In (k, pat) field_patterns
              /\ v = py_or (find_first pat T) "Not detected".
Proof.
  unfold extract_key_terms, field_patterns. cbn [Dict.get].
  repeat match goal with
         | |- context [String.eqb ?a k] =>
             destruct (String.eqb_spec a k);
             [subst k; intros [= <-]; eexists; split; [|reflexivity];
              simpl; auto 10 |]
         end.
  discriminate.
Qed.

Lemma field_patterns_get (T k : string) (pat : pattern) :
  In (k, pat) field_patterns ->
  Dict.get (extract_key_terms T) k
  = Some (py_or (find_first pat T) "Not detected").
Proof.
  unfold field_patterns. simpl.
  intros [H|[H|[H|[H|[H|[]]]]]]; injection H as <- <-; reflexivity.
Qed.

(** C6.  No text makes extraction or checking fail: every text yields the
    five fields and five results.  The empty text, and any text in which no
    label occurs (in whatever letter case), yields "Not detected" for every
    field; the empty text, and any text in which no trigger phrase occurs,
    yields five failed checks. *)
Theorem unmatched_text_degrades (T : string) :
  Dict.keys (extract_key_terms T)
    = ["facility_amount"; "margin"; "maturity_date"; "borrower"; "purpose"]
  /\ List.length (run_esg_checks T) = 5
  /\ extract_key_terms "" = not_detected
  /\ map passed (run_esg_checks "") = [false; false; false; false; false]
  /\ ((forall l, In l labels -> ~ occurs_ci l T) ->
      extract_key_terms T = not_detected)
  /\ ((forall ks k, In ks triggers -> In k ks -> ~ occurs_ci k T) ->
      map passed (run_esg_checks T) = [false; false; false; false; false]).
Proof.
  repeat (split; [reflexivity|]). split.
  - intros H. unfold extract_key_terms.
    unfold facility_amount_pattern, margin_pattern, maturity_pattern,
      borrower_pattern, purpose_pattern.
    rewrite !find_first_absent by (apply H; simpl; auto 10).
    reflexivity.
  - intros H.
    assert (Hno : forall ks, In ks triggers -> contains_any T ks = false).
    { intros ks Hks. apply not_true_iff_false. intros Hc.
      apply contains_any_spec in Hc. destruct Hc as (k & Hk & Ho).
      exact (H ks k Hks Hk Ho). }
    unfold run_esg_checks. cbn [map passed].
    rewrite !Hno by (simpl; auto 10). reflexivity.
Qed.

Lemma unmatched_text_degrades_witness :
  let T := "Lorem ipsum dolor sit amet" in
  extract_key_terms T = not_detected
  /\ map passed (run_esg_checks T) = [false; false; false; false; false].
Proof.
  intros T.
  destruct (unmatched_text_degrades T) as (_ & _ & _ & _ & Hl & Ht).
  split.
  - apply Hl. intros l Hl' Ho. apply lower_in_spec in Ho.
    simpl in Hl'.
    repeat (destruct Hl' as [<-|Hl']; [vm_compute in Ho; discriminate|]).
    contradiction.
  - apply Ht. intros ks k Hks Hk Ho. apply lower_in_spec in Ho.
    simpl in Hks.
    repeat (destruct Hks as [<-|Hks];
            [simpl in Hk;
             repeat (destruct Hk as [<-|Hk]; [vm_compute in Ho; discriminate|]);
             contradiction|]).
    contradiction.
Defined.

(** C9.  Every value of [extract_key_terms] is "Not detected" or a non-empty
    text found by the field's pattern.  When the pattern matches and its
    group holds nothing but whitespace, the value is "Not detected" and not
    the empty text; "Borrower: " is such a text. *)
Theorem extracted_values_nonempty (T : string) :
  (forall k v,
      Dict.get (extract_key_terms T) k = Some v ->
      v = "Not detected"
      \/ (v <> ""
          /\ exists pat, In (k, pat) field_patterns
                         /\ find_first pat T = Some v))
  /\ (forall k pat g,
        In (k, pat) field_patterns ->
        search IGNORECASE pat T = Some g -> Str.strip g = "" ->
        Dict.get (extract_key_terms T) k = Some "Not detected")
  /\ search IGNORECASE borrower_pattern "Borrower: " = Some " "
  /\ find_first borrower_pattern "Borrower: " = Some ""
  /\ Dict.get (extract_key_terms "Borrower: ") "borrower"
     = Some "Not detected".
Proof.
  split; [|split; [|repeat split]].
  - intros k v H.
    destruct (extract_key_terms_get _ _ _ H) as (pat & Hin & ->).
    destruct (py_or_cases (find_first pat T) "Not detected") as [E|[E Hne]].
    + now left.
    + right. split; [exact Hne|]. now exists pat.
  - intros k pat g Hin Hs Hg.
    rewrite (field_patterns_get T k pat Hin).
    unfold find_first. now rewrite Hs, Hg.
Qed.

Lemma extracted_values_nonempty_witness :
  let T := "Borrower: GreenTech Energy Ltd.  " in
  "GreenTech Energy Ltd." = "Not detected"
  \/ ("GreenTech Energy Ltd." <> ""
      /\ exists pat, In ("borrower", pat) field_patterns
                     /\ find_first pat T = Some "GreenTech Energy Ltd.").
Proof.
  intros T.
  apply (proj1 (extracted_values_nonempty T) "borrower"). reflexivity.
Defined.

Section StripFacts.

Lemma lstrip_spec (s : string) :
  exists l, s = l ++ Str.lstrip s /\ all Str.is_space l = true
            /\ not_followed_by Str.is_space (Str.lstrip s).
Proof.
  induction s as [|c s (l & Hs & Hl & Hn)]; simpl.
  - exists "". auto.
  - destruct (Str.is_space c) eqn:E.
    + exists (String c l). simpl. rewrite E, Hl, <- Hs. auto.
    + exists "". simpl. auto.
Qed.

Lemma rstrip_head (s : string) :
  not_followed_by Str.is_space s -> not_followed_by Str.is_space (Str.rstrip s).
Proof.
  destruct s as [|c s]; simpl; [auto|]. intros H. rewrite H.
  destruct (Str.rstrip s); exact H.
Qed.

Lemma rstrip_spec (s : string) :
  exists r, s = Str.rstrip s ++ r /\ all Str.is_space r = true
            /\ forall s' c, Str.rstrip s = s' ++ String c "" ->
                            Str.is_space c = false.
Proof.
  induction s as [|c s (r & Hs & Hr & Hlast)]; simpl.
  - exists "". repeat split. intros [|d s'] c H; discriminate.
  - destruct (Str.rstrip s) as [|d r0] eqn:E.
    + simpl in Hs. subst r. destruct (Str.is_space c) eqn:Ec.
      * exists (String c s). simpl. rewrite Ec, Hr. repeat split.
        intros [|d s'] c' H; discriminate.
      * exists s. repeat split; auto.
        intros [|d s'] c' H; simpl in H.
        -- now injection H as <-.
        -- injection H as _ H. destruct s'; discriminate.
    + exists r. simpl in Hs |- *. rewrite Hs at 1. repeat split; auto.
      intros [|e s'] c' H; simpl in H; [discriminate|].
      injection H as _ H. eauto.
Qed.

(** [strip] removes whitespace, and only whitespace, from both ends. *)
Lemma strip_spec (g : string) :
  exists l r, g = l ++ Str.strip g ++ r
              /\ all Str.is_space l = true /\ all Str.is_space r = true
              /\ trimmed (Str.strip g).
Proof.
  destruct (lstrip_spec g) as (l & Hg & Hl & Hhead).
  destruct (rstrip_spec (Str.lstrip g)) as (r & Hs & Hr & Hlast).
  exists l, r. unfold Str.strip, trimmed.
  rewrite <- Hs. repeat split; auto using rstrip_head.
Qed.

End StripFacts.

Section GreedyFacts.

Lemma none_beforeb_sound (k t : string) (n : nat) :
  none_beforeb k t n = true -> none_before k t n.
Proof.
  revert t; induction n as [|n IH]; intros t H pre mid post Ht Hci.
  - lia.
  - cbn [none_beforeb] in H.
    apply andb_true_iff in H. destruct H as [Hhere Hlater].
    destruct pre as [|c pre].
    + exfalso. apply negb_true_iff in Hhere.
      assert (Hs : Str.startswith (Str.lower k) (Str.lower t) = true).
      { apply startswith_spec. exists (Str.lower post).
        simpl in Ht. subst t. now rewrite lower_append, Hci. }
      congruence.
    + simpl in Ht. subst t. simpl.
      specialize (IH _ Hlater pre mid post eq_refl Hci). lia.
Qed.

(** Matching a literal run against text that is the run up to case. *)
Lemma match_lit_app (l : string) (p : pattern) (m s : string) st :
  same_ci m l ->
  match_here IGNORECASE (lit l ++ p)%list (m ++ s) st
  = match_here IGNORECASE p s (consume_all m st).
Proof.
  unfold same_ci. revert m st; induction l as [|c l IH]; intros [|d m] st H;
    try discriminate; [reflexivity|].
  simpl in H. injection H as Hc Hm.
  cbn [lit app match_here append]. unfold one. rewrite rep_one.
  cbn [atom_test IGNORECASE]. rewrite Hc, Ascii.eqb_refl.
  cbn [consume_all]. now apply IH.
Qed.

(** A greedy repetition takes the whole run [a] when every character of
    [a] is of the class, the bounds allow it, the run cannot be made longer
    and the rest of the pattern then matches. *)
Lemma rep_greedy (test : ascii -> bool) lo hi k (a s : string) n st g :
  all test a = true ->
  room hi (n + String.length a) ->
  under hi (n + String.length a) = false \/ not_followed_by test s ->
  lo <= n + String.length a ->
  k s (consume_all a st) = Some g ->
  rep test lo hi k n (a ++ s) st = Some g.
Proof.
  revert n st; induction a as [|c a IH]; intros n st Hall Hroom Hend Hlo Hk.
  - simpl in *. rewrite Nat.add_0_r in *.
    assert (Hstop : (if (lo <=? n)%nat then k s st else None) = Some g).
    { now rewrite (proj2 (Nat.leb_le _ _) Hlo). }
    destruct s as [|c s]; simpl; [exact Hstop|].
    destruct Hend as [-> | Hc]; [exact Hstop|].
    simpl in Hc. rewrite Hc, andb_false_r. exact Hstop.
  - simpl in Hall. apply andb_true_iff in Hall. destruct Hall as [Hc Hall].
    cbn [append rep String.length] in *.
    assert (Hu : under hi n = true).
    { destruct hi as [m|]; simpl in *; [apply Nat.ltb_lt; lia | reflexivity]. }
    rewrite Hu, Hc. cbn [andb].
    rewrite (IH (S n) (consume c st)); auto.
    + now rewrite Nat.add_succ_comm.
    + now rewrite Nat.add_succ_comm.
    + lia.
Qed.

Lemma amount_char_test (c : ascii) :
  atom_test IGNORECASE
    (CharSet [Range "0" "9"; One ","; One ","; One "."]) c
  = amount_char c.
Proof.
  destruct c as [[] [] [] [] [] [] [] []]; reflexivity.
Qed.

End GreedyFacts.

Section FacilityAmount.

Variable S : string.
Hypothesis amount_ends : not_followed_by amount_char S.

Lemma amount_run_ends :
  not_followed_by
    (atom_test IGNORECASE
       (CharSet [Range "0" "9"; One ","; One ","; One "."])) S.
Proof.
  destruct S as [|c S']; cbn [not_followed_by] in *; [exact I|].
  now rewrite amount_char_test.
Qed.

(** The pattern matches at the label, and group 1 is the amount. *)
Lemma facility_amount_match :
  match_here IGNORECASE facility_amount_pattern
    ("Facility Amount: EUR 150,000,000" ++ S) no_capture
  = Some "EUR 150,000,000".
Proof.
  unfold facility_amount_pattern.
  change ("Facility Amount: EUR 150,000,000" ++ S)
    with ("Facility Amount:" ++ " EUR 150,000,000" ++ S).
  rewrite match_lit_app by reflexivity.
  unfold star, times, one, plus. cbn [match_here].
  apply (rep_greedy _ _ _ _ " " ("EUR 150,000,000" ++ S));
    [reflexivity | exact I | right; reflexivity | simpl; lia |].
  apply (rep_greedy _ _ _ _ "EUR" (" 150,000,000" ++ S));
    [reflexivity | simpl; lia | left; reflexivity | simpl; lia |].
  apply (rep_greedy _ _ _ _ " " ("150,000,000" ++ S));
    [reflexivity | simpl; lia | left; reflexivity | simpl; lia |].
  apply (rep_greedy _ _ _ _ "150,000,000" S);
    [reflexivity | exact I | right; exact amount_run_ends | simpl; lia |].
  reflexivity.
Qed.

Variable P : string.
Hypothesis first_label :
  none_before "Facility Amount:"
    (P ++ "Facility Amount: EUR 150,000,000" ++ S) (String.length P).

Lemma facility_amount_found :
  find_first facility_amount_pattern
    (P ++ "Facility Amount: EUR 150,000,000" ++ S)
  = Some "EUR 150,000,000".
Proof.
  unfold find_first. rewrite search_skip.
  - assert (E : search IGNORECASE facility_amount_pattern
                  ("Facility Amount: EUR 150,000,000" ++ S)
                = Some "EUR 150,000,000").
    { apply search_some. exists "", ("Facility Amount: EUR 150,000,000" ++ S).
      repeat split; [apply facility_amount_match|].
      intros pre' suf' _ Hlen. simpl in Hlen. lia. }
    rewrite E. reflexivity.
  - intros pre suf HP Hne.
    destruct (match_here IGNORECASE facility_amount_pattern
                (suf ++ "Facility Amount: EUR 150,000,000" ++ S) no_capture)
      as [g|] eqn:E; [exfalso | reflexivity].
    apply match_lit_inv in E.
    destruct E as (mid & rest & _ & Hsplit & Hci & _).
    assert (Hlen : String.length P <= String.length pre).
    { apply (first_label pre mid rest); [|exact Hci].
      now rewrite HP, append_assoc, Hsplit. }
    rewrite HP, length_append in Hlen.
    destruct suf; [congruence | simpl in Hlen; lia].
Qed.

End FacilityAmount.

(** C7, as amended.  For each field the stored value comes from the search
    of the field's pattern, without regard to letter case, over the whole
    text: the match at the leftmost position that has one decides, whatever
    comes later, and its group 1 is stored with the whitespace at both ends
    removed ("Not detected" when nothing is left or nothing matches).  For a
    text that contains "Facility Amount: EUR 150,000,000", with no
    occurrence of the label "Facility Amount:" starting earlier and with no
    digit, comma or period directly after the amount, the stored
    facility_amount is "EUR 150,000,000". *)
Theorem extraction_takes_first_match (T : string) :
  (forall k pat,
      In (k, pat) field_patterns ->
      Dict.get (extract_key_terms T) k
      = Some (py_or (find_first pat T) "Not detected")
      /\ (forall v,
            find_first pat T = Some v <->
            exists pre suf g,
              T = pre ++ suf
              /\ match_here IGNORECASE pat suf no_capture = Some g
              /\ (forall pre' suf',
                     T = pre' ++ suf' ->
                     String.length pre' < String.length pre ->
                     match_here IGNORECASE pat suf' no_capture = None)
              /\ v = Str.strip g)
      /\ (find_first pat T = None <->
          forall pre suf, T = pre ++ suf ->
                          match_here IGNORECASE pat suf no_capture = None))
  /\ (forall g, exists l r,
         g = l ++ Str.strip g ++ r
         /\ all Str.is_space l = true /\ all Str.is_space r = true
         /\ trimmed (Str.strip g))
  /\ (forall P S,
         T = P ++ "Facility Amount: EUR 150,000,000" ++ S ->
         none_before "Facility Amount:" T (String.length P) ->
         not_followed_by amount_char S ->
         Dict.get (extract_key_terms T) "facility_amount"
         = Some "EUR 150,000,000").
Proof.
  split; [|split].
  - intros k pat Hin. split; [now apply field_patterns_get|].
    unfold find_first. split.
    + intros v. destruct (search IGNORECASE pat T) as [g|] eqn:E.
      * apply search_some in E. destruct E as (pre & suf & HT & Hm & Hleft).
        split.
        -- intros [= <-]. now exists pre, suf, g.
        -- intros (pre2 & suf2 & g2 & HT2 & Hm2 & Hleft2 & ->).
           destruct (Nat.lt_trichotomy (String.length pre2) (String.length pre))
             as [Hlt|[Heq|Hgt]].
           ++ rewrite (Hleft pre2 suf2 HT2 Hlt) in Hm2. discriminate.
           ++ assert (suf2 = suf /\ pre2 = pre) as [-> _].
              { clear - HT HT2 Heq. subst T. revert pre HT2 Heq.
                induction pre2 as [|c pre2 IH]; intros [|d pre] H Hl;
                  try discriminate; simpl in *; [auto|].
                injection H as -> H. injection Hl as Hl.
                destruct (IH _ H Hl) as [-> ->]. auto. }
              congruence.
           ++ rewrite (Hleft2 pre suf HT Hgt) in Hm. discriminate.
      * split; [discriminate|].
        intros (pre2 & suf2 & g2 & HT2 & Hm2 & _).
        rewrite (proj1 (search_none _ _ _) E pre2 suf2 HT2) in Hm2.
        discriminate.
    + destruct (search IGNORECASE pat T) as [g|] eqn:E.
      * split; [discriminate|]. intros H.
        apply search_none in H. congruence.
      * split; [intros _|reflexivity]. now apply search_none.
  - apply strip_spec.
  - intros P S -> Hfirst Hend. unfold extract_key_terms. cbn [Dict.get].
    rewrite String.eqb_refl.
    now rewrite (facility_amount_found S Hend P Hfirst).
Qed.

Lemma extraction_takes_first_match_witness :
  let P := "Loan summary. " in
  let S := " (the Facility)" in
  let T := P ++ "Facility Amount: EUR 150,000,000" ++ S in
  none_before "Facility Amount:" T (String.length P)
  /\ not_followed_by amount_char S
  /\ Dict.get (extract_key_terms T) "facility_amount"
     = Some "EUR 150,000,000".
Proof.
  intros P S T.
  assert (Hfirst : none_before "Facility Amount:" T (String.length P))
    by (apply none_beforeb_sound; reflexivity).
  assert (Hend : not_followed_by amount_char S) by reflexivity.
  split; [exact Hfirst | split; [exact Hend|]].
  exact (proj2 (proj2 (extraction_takes_first_match T)) P S eq_refl Hfirst Hend).
Defined.

(** Counterexample to C7 as first stated: a text can contain
    "Facility Amount: EUR 150,000,000" and yield another facility_amount,
    when an earlier label matches or when the amount goes on. *)
Lemma facility_amount_containing_counterexample :
  let earlier := "Facility Amount: USD 1 Facility Amount: EUR 150,000,000" in
  let longer := "Facility Amount: EUR 150,000,000.50" in
  Str.str_in "Facility Amount: EUR 150,000,000" earlier = true
  /\ Dict.get (extract_key_terms earlier) "facility_amount" = Some "USD 1"
  /\ Str.str_in "Facility Amount: EUR 150,000,000" longer = true
  /\ Dict.get (extract_key_terms longer) "facility_amount"
     = Some "EUR 150,000,000.50"
  /\ ~ (forall T,
          Str.str_in "Facility Amount: EUR 150,000,000" T = true ->
          Dict.get (extract_key_terms T) "facility_amount"
          = Some "EUR 150,000,000").
Proof.
  intros earlier longer. repeat split.
  intros H. specialize (H earlier eq_refl). discriminate.
Qed.

(** ** The scenarios of the specification, run on the embedding *)

Example scenario_margin :
  Dict.get (extract_key_terms "Interest Margin: 2.50% per annum") "margin"
  = Some "2.50% per annum".
Proof. reflexivity. Qed.

Example scenario_margin_change :
  compare_terms [("margin", "2.50% per annum")] [("margin", "3.00% per annum")]
  = [ {| field := "margin";
         from_value := "2.50% per annum";
         to_value := "3.00% per annum";
         impact := "Economic impact: margin changed (cost of debt)." |} ].
Proof. reflexivity. Qed.

Example scenario_checks :
  map passed (run_esg_checks "The annual report lists each KPI.")
  = [false; false; true; true; false].
Proof. reflexivity. Qed.

Example scenario_unchanged :
  let text := "Borrower: GreenTech Energy Ltd." in
  changes (analyze_docs text text) = []
  /\ Dict.get (key_terms_v2 (analyze_docs text text)) "borrower"
     = Some "GreenTech Energy Ltd."
  /\ List.length (esg_checks (analyze_docs text text)) = 5.
Proof. repeat split. Qed.

(** * Further properties of the code *)

(** ** [contains_any] and [run_esg_checks] *)

Section KeywordFacts.

Lemma lower_char_idem (c : ascii) :
  Str.lower_char (Str.lower_char c) = Str.lower_char c.
Proof. destruct c as [[] [] [] [] [] [] [] []]; reflexivity. Qed.

Lemma lower_idem (s : string) : Str.lower (Str.lower s) = Str.lower s.
Proof.
  induction s as [|c s IH]; simpl; [reflexivity|].
  now rewrite lower_char_idem, IH.
Qed.

Lemma occurs_ci_extend (k t pre post : string) :
  occurs_ci k t -> occurs_ci k (pre ++ t ++ post).
Proof.
  intros (a & m & b & -> & H). exists (pre ++ a), m, (b ++ post).
  split; [|exact H]. now rewrite !append_assoc.
Qed.

Lemma occurs_ci_trans (k k' t : string) :
  occurs_ci k k' -> occurs_ci k' t -> occurs_ci k t.
Proof.
  intros (a & m & b & Hk' & Hm) (pre & mid & post & -> & Hmid).
  unfold same_ci in *. rewrite Hk', !lower_append in Hmid.
  destruct (lower_split _ _ _ Hmid) as (x & y & -> & Hx & Hy).
  destruct (lower_split _ _ _ Hy) as (m' & z & -> & Hm' & Hz).
  exists (pre ++ x), m', (z ++ post). split.
  - now rewrite !append_assoc.
  - unfold same_ci. congruence.
Qed.

End KeywordFacts.

(** X1.  [contains_any] is false for an empty list of keywords, true for
    every text as soon as the empty keyword is in the list, and over two
    lists put together it is the disjunction of the two results. *)
Theorem contains_any_keywords (t : string) (ks1 ks2 : list string) :
  contains_any t [] = false
  /\ (In "" ks1 -> contains_any t ks1 = true)
  /\ contains_any t (ks1 ++ ks2)%list
     = contains_any t ks1 || contains_any t ks2.
Proof.
  split; [reflexivity|]. split.
  - intros H. apply contains_any_spec. exists "". split; [exact H|].
    exists "", "", t. split; reflexivity.
  - unfold contains_any. apply existsb_app.
Qed.

Lemma contains_any_keywords_witness :
  In "" ["climate"; ""] /\ contains_any "Facility" ["climate"; ""] = true.
Proof.
  assert (H : In "" ["climate"; ""]) by (simpl; auto).
  split; [exact H|].
  exact (proj1 (proj2 (contains_any_keywords "Facility" ["climate"; ""] [])) H).
Defined.

(** X2.  The checks do not see letter case: two texts that are equal up to
    case get the same results, and so does a text and its lowercase form. *)
Theorem esg_checks_ignore_case (t t' : string) :
  same_ci t t' ->
  run_esg_checks t = run_esg_checks t'
  /\ run_esg_checks (Str.lower t) = run_esg_checks t
  /\ forall ks, contains_any t ks = contains_any t' ks.
Proof.
  unfold same_ci. intros H.
  assert (Hc : forall a b, Str.lower a = Str.lower b ->
                           forall ks, contains_any a ks = contains_any b ks).
  { intros a b E ks. unfold contains_any. now rewrite E. }
  split; [|split].
  - unfold run_esg_checks. now rewrite !(Hc t t' H).
  - unfold run_esg_checks. now rewrite !(Hc _ _ (lower_idem t)).
  - now apply Hc.
Qed.

Lemma esg_checks_ignore_case_witness :
  same_ci "Annual REPORT" "annual Report"
  /\ run_esg_checks "Annual REPORT" = run_esg_checks "annual Report".
Proof.
  assert (H : same_ci "Annual REPORT" "annual Report") by reflexivity.
  split; [exact H|].
  exact (proj1 (esg_checks_ignore_case _ _ H)).
Defined.

(** X3.  Text added before or after never turns a passed check into a
    failed one. *)
Theorem esg_checks_monotone (t pre post : string) :
  (forall ks, contains_any t ks = true ->
              contains_any (pre ++ t ++ post) ks = true)
  /\ Forall2 (fun r r' => passed r = true -> passed r' = true)
             (run_esg_checks t) (run_esg_checks (pre ++ t ++ post)).
Proof.
  assert (H : forall ks, contains_any t ks = true ->
                         contains_any (pre ++ t ++ post) ks = true).
  { intros ks Hc. apply contains_any_spec in Hc.
    destruct Hc as (k & Hk & Ho). apply contains_any_spec.
    exists k. split; [exact Hk|]. now apply occurs_ci_extend. }
  split; [exact H|].
  unfold run_esg_checks. repeat (constructor; [apply H|]). constructor.
Qed.

Lemma esg_checks_monotone_witness :
  contains_any "the KPI" ["kpi"] = true
  /\ contains_any ("On " ++ "the KPI" ++ " list") ["kpi"] = true.
Proof.
  assert (H : contains_any "the KPI" ["kpi"] = true) by reflexivity.
  split; [exact H|].
  exact (proj1 (esg_checks_monotone "the KPI" "On " " list") ["kpi"] H).
Defined.

(** X4.  A keyword that contains another keyword of the list adds nothing
    to it; so the phrase "sustainability performance target" of the third
    rule never decides its result. *)
Theorem contains_any_redundant (t k k' : string) (ks : list string) :
  In k ks -> occurs_ci k k' ->
  contains_any t (k' :: ks) = contains_any t ks
  /\ (forall T,
        contains_any T
          [ "key performance indicator"; "kpi";
            "sustainability performance target"; "performance target" ]
        = contains_any T
            [ "key performance indicator"; "kpi"; "performance target" ]).
Proof.
  assert (G : forall T a b l,
             In a l -> occurs_ci a b ->
             contains_any T (b :: l) = contains_any T l).
  { intros T a b l Hin Ho.
    destruct (contains_any T l) eqn:E.
    - apply contains_any_spec in E. destruct E as (x & Hx & Hox).
      apply contains_any_spec. exists x. split; [now right | exact Hox].
    - apply not_true_iff_false. intros Hc. apply contains_any_spec in Hc.
      destruct Hc as (x & [<-|Hx] & Hox).
      + apply not_true_iff_false in E. apply E. apply contains_any_spec.
        exists a. split; [exact Hin|]. eauto using occurs_ci_trans.
      + apply not_true_iff_false in E. apply E. apply contains_any_spec.
        now exists x. }
  intros Hin Ho. split; [now apply (G t k k' ks)|].
  intros T.
  assert (E : forall a b c d,
             contains_any T [a; b; c; d]
             = contains_any T (c :: [a; b; d])).
  { intros a b c d. unfold contains_any. simpl.
    destruct (Str.str_in (Str.lower a) (Str.lower T));
      destruct (Str.str_in (Str.lower b) (Str.lower T));
      destruct (Str.str_in (Str.lower c) (Str.lower T)); reflexivity. }
  rewrite E. apply (G T "performance target").
  - simpl; auto.
  - exists "sustainability ", "performance target", "". split; reflexivity.
Qed.

Lemma contains_any_redundant_witness :
  In "report" ["report"] /\ occurs_ci "report" "annual report"
  /\ contains_any "Annual Report 2024" ["annual report"; "report"]
     = contains_any "Annual Report 2024" ["report"].
Proof.
  assert (H1 : In "report" ["report"]) by (simpl; auto).
  assert (H2 : occurs_ci "report" "annual report").
  { exists "annual ", "report", "". split; reflexivity. }
  split; [exact H1 | split; [exact H2|]].
  exact (proj1 (contains_any_redundant "Annual Report 2024" "report"
                  "annual report" ["report"] H1 H2)).
Defined.

(** ** [compare_terms] and its use in [analyze_docs] *)

Section CompareMore.

Lemma py_eq_sym (a b : option string) : py_eq a b = py_eq b a.
Proof.
  destruct a as [x|], b as [y|]; simpl; auto using String.eqb_sym.
Qed.

Lemma differs_sym (v1 v2 : Dict.dict) (f : string) :
  differs v1 v2 f = differs v2 v1 f.
Proof. unfold differs. now rewrite py_eq_sym. Qed.

Lemma extract_key_terms_values (T k v : string) :
  Dict.get (extract_key_terms T) k = Some v ->
  v <> ""
  /\ In k ["facility_amount"; "margin"; "maturity_date"; "borrower";
           "purpose"].
Proof.
  intros H. split.
  - destruct (extract_key_terms_get _ _ _ H) as (pat & _ & ->).
    destruct (py_or_cases (find_first pat T) "Not detected") as [->|[_ Hne]];
      [discriminate | exact Hne].
  - exact (get_some_in _ _ _ H).
Qed.

End CompareMore.

(** X5.  [compare_terms] returns no change exactly when the revised mapping
    agrees with the baseline on every key of the baseline, and it never
    returns more changes than the baseline has keys. *)
Theorem compare_terms_empty_iff (v1 v2 : Dict.dict) :
  (compare_terms v1 v2 = [] <->
   forall f, In f (Dict.keys v1) -> Dict.get v1 f = Dict.get v2 f)
  /\ List.length (compare_terms v1 v2) <= List.length (Dict.keys v1).
Proof.
  rewrite compare_terms_eq. split.
  - split.
    + intros H f Hf.
      destruct (py_eq (Dict.get v1 f) (Dict.get v2 f)) eqn:E;
        [now apply py_eq_spec|].
      exfalso. apply map_eq_nil in H.
      assert (Hin : In f (filter (differs v1 v2) (Dict.keys v1))).
      { apply filter_In. split; [exact Hf|]. unfold differs. now rewrite E. }
      rewrite H in Hin. contradiction.
    + intros H.
      replace (filter (differs v1 v2) (Dict.keys v1)) with (@nil string);
        [reflexivity|].
      symmetry. induction (Dict.keys v1) as [|k ks IH]; [reflexivity|].
      simpl. unfold differs at 1.
      rewrite (proj2 (py_eq_spec _ _) (H k (or_introl eq_refl))). simpl.
      apply IH. intros f Hf. apply H. now right.
  - rewrite length_map. apply filter_length_le.
Qed.

(** X6.  The result depends on the revised mapping only through the values
    it has for the keys of the baseline: keys it has beyond those, and
    their values, change nothing. *)
Theorem compare_terms_baseline_keys (v1 v2 v2' : Dict.dict) :
  (forall f, In f (Dict.keys v1) -> Dict.get v2 f = Dict.get v2' f) ->
  compare_terms v1 v2 = compare_terms v1 v2'.
Proof.
  intros H. rewrite !compare_terms_eq.
  assert (E : filter (differs v1 v2) (Dict.keys v1)
              = filter (differs v1 v2') (Dict.keys v1)).
  { apply filter_ext_in. intros f Hf. unfold differs. now rewrite (H f Hf). }
  rewrite E. apply map_ext_in. intros f Hf.
  apply filter_In in Hf. destruct Hf as [Hf _].
  unfold change_of. now rewrite (H f Hf).
Qed.

Lemma compare_terms_baseline_keys_witness :
  let v1 := [("margin", "2.50% per annum")] in
  let v2 := [("margin", "3.00% per annum")] in
  let v2' := [("covenant", "none"); ("margin", "3.00% per annum")] in
  compare_terms v1 v2 = compare_terms v1 v2'.
Proof.
  intros v1 v2 v2'. apply compare_terms_baseline_keys.
  intros f [<-|[]]. reflexivity.
Defined.

(** X7.  When both mappings have the same keys in the same order, comparing
    them the other way round gives the same changes with [from_value] and
    [to_value] exchanged; so does [analyze_docs] with its two texts
    exchanged. *)
Theorem compare_terms_reversed (v1 v2 : Dict.dict) :
  Dict.keys v1 = Dict.keys v2 ->
  compare_terms v2 v1 = map reversed (compare_terms v1 v2)
  /\ forall text_v1 text_v2,
       changes (analyze_docs text_v2 text_v1)
       = map reversed (changes (analyze_docs text_v1 text_v2)).
Proof.
  assert (G : forall a b, Dict.keys a = Dict.keys b ->
                          compare_terms b a = map reversed (compare_terms a b)).
  { intros a b H. rewrite !compare_terms_eq, map_map, <- H.
    assert (E : filter (differs b a) (Dict.keys a)
                = filter (differs a b) (Dict.keys a)).
    { apply filter_ext. intros f. apply differs_sym. }
    rewrite E. reflexivity. }
  intros H. split; [now apply G|].
  intros text_v1 text_v2. unfold analyze_docs. cbn [changes].
  apply G. reflexivity.
Qed.

Lemma compare_terms_reversed_witness :
  let v1 := [("margin", "2.50% per annum"); ("borrower", "GreenTech")] in
  let v2 := [("margin", "3.00% per annum"); ("borrower", "GreenTech")] in
  Dict.keys v1 = Dict.keys v2
  /\ compare_terms v2 v1 = map reversed (compare_terms v1 v2).
Proof.
  intros v1 v2.
  assert (H : Dict.keys v1 = Dict.keys v2) by reflexivity.
  split; [exact H|]. exact (proj1 (compare_terms_reversed v1 v2 H)).
Defined.

(** X8.  In the result of [analyze_docs] every change is for one of the five
    fields, each field at most once and in the order of the fields; its
    [from_value] and [to_value] are the two extracted values of that field,
    they differ and neither is empty; and its impact is one of the five
    field messages, never the default "Change detected". *)
Theorem analyze_docs_changes (text_v1 text_v2 : string) :
  let r := analyze_docs text_v1 text_v2 in
  map field (changes r)
  = filter (differs (key_terms_v1 r) (key_terms_v2 r))
      ["facility_amount"; "margin"; "maturity_date"; "borrower"; "purpose"]
  /\ NoDup (map field (changes r))
  /\ List.length (changes r) <= 5
  /\ forall c,
       In c (changes r) ->
       Dict.get (key_terms_v1 r) (field c) = Some (from_value c)
       /\ Dict.get (key_terms_v2 r) (field c) = Some (to_value c)
       /\ from_value c <> to_value c
       /\ from_value c <> "" /\ to_value c <> ""
       /\ In (impact c) field_impacts
       /\ impact c <> "Change detected".
Proof.
  intros r. subst r. unfold analyze_docs.
  cbn [changes key_terms_v1 key_terms_v2].
  set (k1 := extract_key_terms text_v1). set (k2 := extract_key_terms text_v2).
  assert (Hk : Dict.keys k1
               = ["facility_amount"; "margin"; "maturity_date"; "borrower";
                  "purpose"]) by reflexivity.
  assert (Hf : map field (compare_terms k1 k2)
               = filter (differs k1 k2) (Dict.keys k1))
    by apply compare_terms_fields.
  split; [now rewrite Hf, Hk|]. split.
  { rewrite Hf. apply NoDup_filter. rewrite Hk.
    repeat constructor; simpl; intuition discriminate. }
  split.
  { rewrite <- (length_map field), Hf.
    etransitivity; [apply filter_length_le|]. now rewrite Hk. }
  intros c Hc. apply compare_terms_in in Hc. destruct Hc as (Hin & Hd & Hc).
  assert (Hin2 : In (field c) (Dict.keys k2)) by exact Hin.
  destruct (get_in_some _ _ Hin) as [a Ha].
  destruct (get_in_some _ _ Hin2) as [b Hb].
  apply differs_spec in Hd.
  destruct (extract_key_terms_values _ _ _ Ha) as [Hane _].
  destruct (extract_key_terms_values _ _ _ Hb) as [Hbne _].
  rewrite Hc. unfold change_of. cbn [field from_value to_value impact].
  rewrite Ha, Hb in *. cbn [py_str].
  repeat split; auto; try congruence.
  - rewrite Hk in Hin. simpl in Hin.
    repeat (destruct Hin as [<-|Hin]; [simpl; auto 10|]). contradiction.
  - rewrite Hk in Hin. simpl in Hin.
    repeat (destruct Hin as [<-|Hin]; [discriminate|]). contradiction.
Qed.

Lemma compare_terms_empty_iff_witness :
  let v := [("margin", "2.50% per annum")] in
  (forall f, In f (Dict.keys v) -> Dict.get v f = Dict.get v f)
  /\ compare_terms v v = [].
Proof.
  intros v.
  assert (H : forall f, In f (Dict.keys v) -> Dict.get v f = Dict.get v f)
    by reflexivity.
  split; [exact H|].
  exact (proj2 (proj1 (compare_terms_empty_iff v v)) H).
Defined.

Lemma analyze_docs_changes_witness :
  let r := analyze_docs "Interest Margin: 2.50% per annum"
                        "Interest Margin: 3.00% per annum" in
  let c := {| field := "margin";
              from_value := "2.50% per annum";
              to_value := "3.00% per annum";
              impact := "Economic impact: margin changed (cost of debt)." |} in
  In c (changes r)
  /\ Dict.get (key_terms_v2 r) (field c) = Some (to_value c).
Proof.
  intros r c.
  assert (H : In c (changes r)) by (left; reflexivity).
  split; [exact H|].
  destruct (proj2 (proj2 (proj2 (analyze_docs_changes
                                   "Interest Margin: 2.50% per annum"
                                   "Interest Margin: 3.00% per annum"))) c H)
    as (_ & Hto & _).
  exact Hto.
Defined.

(** ** [find_first] and [extract_key_terms] *)

Section CaptureFacts.

Lemma consume_all_text (a : string) (st : capture) :
  consume_all a st
  = if is_open st then {| is_open := true; text := text st ++ a |} else st.
Proof.
  revert st; induction a as [|c a IH]; intros [o t]; simpl.
  - destruct o; [now rewrite append_empty_r | reflexivity].
  - rewrite IH. unfold consume. simpl. destruct o; simpl; [|reflexivity].
    now rewrite append_assoc.
Qed.

(** What a repetition that succeeds has taken. *)
Lemma rep_sound (test : ascii -> bool) lo hi k n (s : string) st g :
  room hi n ->
  rep test lo hi k n s st = Some g ->
  exists a r,
    s = a ++ r /\ all test a = true
    /\ lo <= n + String.length a /\ room hi (n + String.length a)
    /\ k r (consume_all a st) = Some g.
Proof.
  assert (Hstop : forall n s st,
             room hi n ->
             (if (lo <=? n)%nat then k s st else None) = Some g ->
             exists a r,
               s = a ++ r /\ all test a = true
               /\ lo <= n + String.length a /\ room hi (n + String.length a)
               /\ k r (consume_all a st) = Some g).
  { intros n' s' st' Hr H. destruct (Nat.leb_spec lo n'); [|discriminate].
    exists "", s'. simpl. rewrite Nat.add_0_r. auto. }
  revert n st; induction s as [|c s IH]; intros n st Hroom H.
  - now apply Hstop.
  - cbn [rep] in H.
    destruct (under hi n && test c) eqn:E; [|now apply Hstop].
    apply andb_true_iff in E. destruct E as [Hu Hc].
    destruct (rep test lo hi k (S n) s (consume c st)) as [g'|] eqn:Er;
      [|now apply Hstop].
    injection H as ->.
    assert (Hroom' : room hi (S n)).
    { destruct hi as [m|]; simpl in *; [apply Nat.ltb_lt in Hu; lia | exact I]. }
    destruct (IH _ _ Hroom' Er) as (a & r & -> & Ha & Hlo & Hhi & Hk).
    exists (String c a), r. simpl. rewrite Hc, Ha.
    rewrite <- Nat.add_succ_comm. auto.
Qed.

Lemma room_zero (hi : option nat) : room hi 0.
Proof. destruct hi; simpl; [lia | exact I]. Qed.

Lemma occurs_in_suffix (g a r : string) : occurs g r -> occurs g (a ++ r).
Proof.
  intros (x & y & ->). exists (a ++ x), y. now rewrite append_assoc.
Qed.

(** The text of group 1 is taken from the text that is matched. *)
Lemma match_here_capture ignorecase (p : pattern) (s : string) st g :
  match_here ignorecase p s st = Some g ->
  occurs g s
  \/ exists b r, s = b ++ r /\ g = text st ++ (if is_open st then b else "").
Proof.
  revert s st; induction p as [|[a lo hi| |] p IH]; intros s st H.
  - right. exists "", s. simpl in *. injection H as <-.
    destruct (is_open st); now rewrite append_empty_r.
  - cbn [match_here] in H.
    destruct (rep_sound _ _ _ _ _ _ _ _ (room_zero hi) H)
      as (x & r & -> & _ & _ & _ & Hk).
    rewrite consume_all_text in Hk.
    destruct (IH _ _ Hk) as [Ho | (b & r' & -> & Hg)].
    + left. now apply occurs_in_suffix.
    + right. destruct (is_open st) eqn:Eo; simpl in Hg.
      * exists (x ++ b), r'. rewrite Hg, !append_assoc. auto.
      * rewrite Eo in Hg. exists "", (x ++ b ++ r'). auto.
  - cbn [match_here] in H.
    destruct (IH _ _ H) as [Ho | (b & r & -> & Hg)]; [now left|].
    left. exists "", r. simpl in Hg |- *. now rewrite Hg.
  - cbn [match_here] in H.
    destruct (IH _ _ H) as [Ho | (b & r & -> & Hg)]; [now left|].
    right. exists "", (b ++ r). simpl in Hg. split; [reflexivity|].
    destruct (is_open st); exact Hg.
Qed.

Lemma search_occurs ignorecase (p : pattern) (t g : string) :
  search ignorecase p t = Some g -> occurs g t.
Proof.
  intros H. apply search_some in H. destruct H as (pre & suf & -> & Hm & _).
  apply occurs_in_suffix.
  destruct (match_here_capture _ _ _ _ _ Hm) as [Ho | (b & r & -> & Hg)];
    [exact Ho|].
  simpl in Hg. subst g. now exists "", (b ++ r).
Qed.

End CaptureFacts.

(** X9.  What [find_first] returns is a piece of the text as it stands
    there, with no whitespace at either end.  So every value of
    [extract_key_terms] is "Not detected" or such a piece of the text. *)
Theorem find_first_verbatim (pat : pattern) (T v : string) :
  find_first pat T = Some v ->
  occurs v T /\ trimmed v
  /\ forall k x,
       Dict.get (extract_key_terms T) k = Some x ->
       x = "Not detected" \/ (occurs x T /\ trimmed x).
Proof.
  assert (G : forall p t x, find_first p t = Some x -> occurs x t /\ trimmed x).
  { intros p t x H. unfold find_first in H.
    destruct (search IGNORECASE p t) as [g|] eqn:E; [|discriminate].
    injection H as <-. apply search_occurs in E.
    destruct E as (pre & post & ->).
    destruct (strip_spec g) as (l & r & Hg & _ & _ & Ht).
    split; [|exact Ht].
    exists (pre ++ l), (r ++ post). rewrite Hg at 1.
    now rewrite !append_assoc. }
  intros H. destruct (G _ _ _ H) as [Ho Ht].
  split; [exact Ho | split; [exact Ht|]].
  intros k x Hx.
  destruct (extract_key_terms_get _ _ _ Hx) as (p & _ & ->).
  destruct (py_or_cases (find_first p T) "Not detected") as [E|[E _]];
    [now left | right; eauto].
Qed.

Lemma find_first_verbatim_witness :
  let T := "Borrower:   GreenTech Energy Ltd.  " in
  find_first borrower_pattern T = Some "GreenTech Energy Ltd."
  /\ occurs "GreenTech Energy Ltd." T.
Proof.
  intros T.
  assert (H : find_first borrower_pattern T = Some "GreenTech Energy Ltd.")
    by reflexivity.
  split; [exact H|]. exact (proj1 (find_first_verbatim _ _ _ H)).
Defined.

(** X10.  Text in front in which no occurrence of the label starts does not
    change what a pattern that begins with the label finds; when that holds
    for the five labels, [extract_key_terms] gives the same mapping with and
    without the text in front. *)
Theorem leading_text_ignored (front T : string) :
  (forall l p,
      none_before l (front ++ T) (String.length front) ->
      find_first (lit l ++ p)%list (front ++ T) = find_first (lit l ++ p)%list T)
  /\ ((forall l, In l labels ->
                 none_before l (front ++ T) (String.length front)) ->
      extract_key_terms (front ++ T) = extract_key_terms T).
Proof.
  assert (G : forall l p,
             none_before l (front ++ T) (String.length front) ->
             find_first (lit l ++ p)%list (front ++ T)
             = find_first (lit l ++ p)%list T).
  { intros l p Hnone. unfold find_first. rewrite search_skip; [reflexivity|].
    intros pre suf Hfront Hne.
    destruct (match_here IGNORECASE (lit l ++ p)%list (suf ++ T) no_capture)
      as [g|] eqn:E; [exfalso | reflexivity].
    apply match_lit_inv in E.
    destruct E as (mid & rest & _ & Hsplit & Hci & _).
    assert (Hlen : String.length front <= String.length pre).
    { apply (Hnone pre mid rest); [|exact Hci].
      now rewrite Hfront, append_assoc, Hsplit. }
    rewrite Hfront, length_append in Hlen.
    destruct suf; [congruence | simpl in Hlen; lia]. }
  split; [exact G|].
  intros H. unfold extract_key_terms.
  unfold facility_amount_pattern, margin_pattern, maturity_pattern,
    borrower_pattern, purpose_pattern.
  rewrite !G by (apply H; simpl; auto 10). reflexivity.
Qed.

Lemma leading_text_ignored_witness :
  let front := "DRAFT v2. " in
  let T := "Purpose: refinancing" in
  (forall l, In l labels -> none_before l (front ++ T) (String.length front))
  /\ extract_key_terms (front ++ T) = extract_key_terms T.
Proof.
  intros front T.
  assert (H : forall l, In l labels ->
                        none_before l (front ++ T) (String.length front)).
  { intros l Hl. apply none_beforeb_sound. simpl in Hl.
    repeat (destruct Hl as [<-|Hl]; [reflexivity|]). contradiction. }
  split; [exact H|]. exact (proj2 (leading_text_ignored front T) H).
Defined.

Section ShapeFacts.

Lemma all_ext (f g : ascii -> bool) (s : string) :
  (forall c, f c = g c) -> all f s = all g s.
Proof.
  intros H. induction s as [|c s IH]; simpl; [reflexivity|].
  now rewrite H, IH.
Qed.

Lemma all_append (f : ascii -> bool) (a b : string) :
  all f (a ++ b) = all f a && all f b.
Proof.
  induction a as [|c a IH]; simpl; [reflexivity|].
  now rewrite IH, andb_assoc.
Qed.

Lemma append_last_inj (a b : string) (x y : ascii) :
  a ++ String x "" = b ++ String y "" -> a = b /\ x = y.
Proof.
  revert b; induction a as [|c a IH]; intros [|d b] H; simpl in H.
  - injection H as ->. auto.
  - injection H as _ H. destruct b; discriminate.
  - injection H as _ H. destruct a; discriminate.
  - injection H as -> H. destruct (IH _ H) as [-> ->]. auto.
Qed.

(** The last character of a text that ends with a non-empty run of class
    [f] is of class [f]. *)
Lemma last_of_all (f : ascii -> bool) (a : string) :
  all f a = true -> a <> "" ->
  forall p s' c, p ++ a = s' ++ String c "" -> f c = true.
Proof.
  induction a as [|x a IH]; intros Hall Hne p s' c H; [congruence|].
  simpl in Hall. apply andb_true_iff in Hall. destruct Hall as [Hx Ha].
  destruct a as [|y a].
  - apply append_last_inj in H. destruct H as [_ <-]. exact Hx.
  - apply (IH Ha ltac:(discriminate) (p ++ String x "") s' c).
    now rewrite append_assoc.
Qed.

Lemma rstrip_id (s : string) :
  (forall s' c, s = s' ++ String c "" -> Str.is_space c = false) ->
  Str.rstrip s = s.
Proof.
  induction s as [|c s IH]; intros H; [reflexivity|]. simpl.
  destruct s as [|d s].
  - simpl. now rewrite (H "" c eq_refl).
  - rewrite IH; [reflexivity|].
    intros s' x E. apply (H (String c s') x). simpl. now rewrite E.
Qed.

(** [strip] leaves a text alone that has no whitespace at its ends. *)
Lemma strip_id (s : string) : trimmed s -> Str.strip s = s.
Proof.
  intros [Hhead Hlast]. unfold Str.strip.
  assert (E : Str.lstrip s = s).
  { destruct s as [|c s]; [reflexivity|]. simpl in *. now rewrite Hhead. }
  rewrite E. now apply rstrip_id.
Qed.

(** A match of a pattern that starts with the literal run [l] has matched
    [l] up to letter case and gone on with the rest of the pattern. *)
Lemma match_lit_sound (l : string) (p : pattern) (s g : string) st :
  match_here IGNORECASE (lit l ++ p)%list s st = Some g ->
  exists mid rest,
    s = mid ++ rest /\ same_ci mid l
    /\ match_here IGNORECASE p rest (consume_all mid st) = Some g.
Proof.
  revert s st; induction l as [|c l IH]; intros s st H.
  - exists "", s. repeat split; auto.
  - destruct s as [|d s]; [discriminate|].
    cbn [lit app match_here] in H. unfold one in H. rewrite rep_one in H.
    cbn [atom_test IGNORECASE] in H.
    destruct (Ascii.eqb_spec (Str.lower_char d) (Str.lower_char c)) as [E|];
      [|discriminate].
    destruct (IH _ _ H) as (mid & rest & -> & Hci & Hm).
    exists (String d mid), rest. repeat split; auto.
    unfold same_ci in *. simpl. now rewrite E, Hci.
Qed.

Lemma letter_test (c : ascii) :
  atom_test IGNORECASE (CharSet [Range "A" "Z"]) c = is_letter c.
Proof. destruct c as [[] [] [] [] [] [] [] []]; reflexivity. Qed.

Lemma digit_test (c : ascii) :
  atom_test IGNORECASE (CharSet [Range "0" "9"]) c = is_digit c.
Proof. destruct c as [[] [] [] [] [] [] [] []]; reflexivity. Qed.

Lemma rate_test (c : ascii) :
  atom_test IGNORECASE (CharSet [Range "0" "9"; One "."]) c = rate_char c.
Proof. destruct c as [[] [] [] [] [] [] [] []]; reflexivity. Qed.

Lemma letter_not_space (c : ascii) :
  is_letter c = true -> Str.is_space c = false.
Proof.
  destruct c as [[] [] [] [] [] [] [] []]; vm_compute; congruence.
Qed.

Lemma amount_not_space (c : ascii) :
  amount_char c = true -> Str.is_space c = false.
Proof.
  destruct c as [[] [] [] [] [] [] [] []]; vm_compute; congruence.
Qed.

Lemma exact_length (lo : nat) (a : string) :
  lo <= String.length a -> room (Some lo) (String.length a) ->
  String.length a = lo.
Proof. simpl. lia. Qed.

End ShapeFacts.

Section FieldShapes.

(** From a repetition that succeeded in [H]: the run [a] it took, the text
    [r] left, and the facts [Ha], [Hlo], [Hhi] about the run. *)
Ltac taken H a r Ha Hlo Hhi :=
  apply rep_sound in H; [|simpl; try lia; exact I];
  destruct H as (a & r & -> & Ha & Hlo & Hhi & H);
  try rewrite consume_all_text in H; cbn [is_open no_capture text] in H.

Lemma single (a : string) :
  1 <= 0 + String.length a -> room (Some 1) (0 + String.length a) ->
  exists c, a = String c "".
Proof.
  destruct a as [|c [|d a]]; simpl; intros; try lia. now exists c.
Qed.

Lemma facility_amount_group (s g : string) :
  match_here IGNORECASE facility_amount_pattern s no_capture = Some g ->
  exists ccy sp amt,
    g = ccy ++ String sp amt
    /\ String.length ccy = 3 /\ all is_letter ccy = true
    /\ Str.is_space sp = true
    /\ amt <> "" /\ all amount_char amt = true.
Proof.
  unfold facility_amount_pattern. intros H.
  apply match_lit_sound in H. destruct H as (mid & r0 & -> & _ & H).
  rewrite consume_all_text in H. cbn [is_open no_capture] in H.
  unfold star, times, one, plus in H. cbn [match_here] in H.
  taken H ws r1 Hws Hws1 Hws2. taken H ccy r2 Hccy Hccy1 Hccy2.
  taken H sp r3 Hsp Hsp1 Hsp2. taken H amt r4 Hamt Hamt1 Hamt2.
  injection H as <-.
  destruct (single sp Hsp1 Hsp2) as [c ->].
  exists ccy, c, amt. repeat split.
  - simpl. now rewrite append_assoc.
  - simpl in *. lia.
  - now rewrite <- (all_ext _ _ ccy letter_test).
  - simpl in Hsp. now rewrite andb_true_r in Hsp.
  - destruct amt; [simpl in Hamt1; lia | discriminate].
  - now rewrite <- (all_ext _ _ amt amount_char_test).
Qed.

Lemma margin_group (s g : string) :
  match_here IGNORECASE margin_pattern s no_capture = Some g ->
  exists rate ws1 ws2 pa,
    g = rate ++ ws1 ++ "%" ++ ws2 ++ pa
    /\ rate <> "" /\ all rate_char rate = true
    /\ all Str.is_space ws1 = true /\ all Str.is_space ws2 = true
    /\ same_ci pa "per annum".
Proof.
  unfold margin_pattern. intros H.
  apply match_lit_sound in H. destruct H as (mid & r0 & -> & _ & H).
  rewrite consume_all_text in H. cbn [is_open no_capture] in H.
  unfold star, times, one, plus in H. cbn [match_here app] in H.
  taken H ws r1 Hws Hws1 Hws2. taken H rate r2 Hrate Hrate1 Hrate2.
  taken H ws1 r3 Hw1 Hw11 Hw12. taken H pc r4 Hpc Hpc1 Hpc2.
  taken H ws2 r5 Hw2 Hw21 Hw22.
  apply match_lit_sound in H. destruct H as (pa & r6 & -> & Hpa & H).
  rewrite consume_all_text in H. cbn [is_open text match_here] in H.
  injection H as <-.
  destruct (single pc Hpc1 Hpc2) as [c ->].
  assert (Hc : c = "%"%char).
  { simpl in Hpc. rewrite andb_true_r in Hpc.
    destruct c as [[] [] [] [] [] [] [] []]; vm_compute in Hpc;
      congruence. }
  subst c. exists rate, ws1, ws2, pa. repeat split; auto.
  - simpl. now rewrite !append_assoc.
  - destruct rate; [simpl in Hrate1; lia | discriminate].
  - now rewrite <- (all_ext _ _ rate rate_test).
Qed.

Lemma maturity_group (s g : string) :
  match_here IGNORECASE maturity_pattern s no_capture = Some g ->
  exists day ws1 month ws2 year,
    g = day ++ ws1 ++ month ++ ws2 ++ year
    /\ 1 <= String.length day <= 2 /\ all is_digit day = true
    /\ ws1 <> "" /\ all Str.is_space ws1 = true
    /\ month <> "" /\ all word_char month = true
    /\ ws2 <> "" /\ all Str.is_space ws2 = true
    /\ String.length year = 4 /\ all is_digit year = true.
Proof.
  unfold maturity_pattern. intros H.
  apply match_lit_sound in H. destruct H as (mid & r0 & -> & _ & H).
  rewrite consume_all_text in H. cbn [is_open no_capture] in H.
  unfold star, times, one, plus in H. cbn [match_here] in H.
  taken H ws r1 Hws Hws1 Hws2. taken H day r2 Hday Hday1 Hday2.
  taken H ws1 r3 Hw1 Hw11 Hw12. taken H month r4 Hm Hm1 Hm2.
  taken H ws2 r5 Hw2 Hw21 Hw22. taken H year r6 Hy Hy1 Hy2.
  injection H as <-.
  assert (Hne : forall a, 1 <= 0 + String.length a -> a <> "").
  { intros [|c a] Hl; [simpl in Hl; lia | discriminate]. }
  exists day, ws1, month, ws2, year. simpl in *.
  repeat split; auto; try lia.
  - now rewrite !append_assoc.
  - now rewrite <- (all_ext _ _ day digit_test).
  - now rewrite <- (all_ext _ _ year digit_test).
Qed.

End FieldShapes.

Section StoredValues.

(** A stored value other than "Not detected" is the stripped group 1 of a
    match of the field's pattern somewhere in the text. *)
Lemma stored_value (k : string) (pat : pattern) (T v : string) :
  In (k, pat) field_patterns ->
  Dict.get (extract_key_terms T) k = Some v ->
  v = "Not detected"
  \/ exists pre suf g,
       T = pre ++ suf
       /\ match_here IGNORECASE pat suf no_capture = Some g
       /\ v = Str.strip g.
Proof.
  intros Hin Hv. rewrite (field_patterns_get T k pat Hin) in Hv.
  injection Hv as <-.
  destruct (py_or_cases (find_first pat T) "Not detected") as [E|[E _]];
    [now left | right].
  revert E. generalize (py_or (find_first pat T) "Not detected").
  intros v E. unfold find_first in E.
  destruct (search IGNORECASE pat T) as [g|] eqn:Es; [|discriminate].
  injection E as <-. apply search_some in Es.
  destruct Es as (pre & suf & HT & Hm & _). now exists pre, suf, g.
Qed.

(** A text that starts with a run of class [f] and ends with a run of
    class [h] has no whitespace at its ends when [f] and [h] have none. *)
Lemma trimmed_ends (f h : ascii -> bool) (a mid b : string) :
  (forall c, f c = true -> Str.is_space c = false) ->
  (forall c, h c = true -> Str.is_space c = false) ->
  a <> "" -> all f a = true -> b <> "" -> all h b = true ->
  trimmed (a ++ mid ++ b).
Proof.
  intros Hf Hh Hane Ha Hbne Hb. split.
  - destruct a as [|c a]; [congruence|]. simpl in *.
    apply andb_true_iff in Ha. now apply Hf.
  - intros s' c E. apply Hh.
    apply (last_of_all h b Hb Hbne (a ++ mid) s' c).
    now rewrite append_assoc.
Qed.

Lemma digit_not_space (c : ascii) :
  is_digit c = true -> Str.is_space c = false.
Proof.
  destruct c as [[] [] [] [] [] [] [] []]; vm_compute; congruence.
Qed.

Lemma rate_not_space (c : ascii) :
  rate_char c = true -> Str.is_space c = false.
Proof.
  destruct c as [[] [] [] [] [] [] [] []]; vm_compute; congruence.
Qed.

Lemma letter_m_not_space (c : ascii) :
  (Str.lower_char c =? "m")%char = true -> Str.is_space c = false.
Proof.
  destruct c as [[] [] [] [] [] [] [] []]; vm_compute; congruence.
Qed.

Lemma nonempty_of_length (a : string) (n : nat) :
  String.length a = S n -> a <> "".
Proof. destruct a; [discriminate | discriminate]. Qed.

End StoredValues.

(** X11.  The facility amount that [extract_key_terms] stores is
    "Not detected" or three letters, one whitespace character and a
    non-empty run of digits, commas and periods. *)
Theorem facility_amount_shape (T v : string) :
  Dict.get (extract_key_terms T) "facility_amount" = Some v ->
  v = "Not detected"
  \/ exists ccy sp amt,
       v = ccy ++ String sp amt
       /\ String.length ccy = 3 /\ all is_letter ccy = true
       /\ Str.is_space sp = true
       /\ amt <> "" /\ all amount_char amt = true.
Proof.
  intros Hv.
  destruct (stored_value _ facility_amount_pattern _ _ ltac:(simpl; auto) Hv)
    as [->|(pre & suf & g & _ & Hm & ->)]; [now left | right].
  destruct (facility_amount_group _ _ Hm)
    as (ccy & sp & amt & -> & Hlen & Hccy & Hsp & Hne & Hamt).
  exists ccy, sp, amt. repeat split; auto.
  apply strip_id.
  apply (trimmed_ends is_letter amount_char ccy (String sp "") amt);
    eauto using letter_not_space, amount_not_space, nonempty_of_length.
Qed.

Lemma facility_amount_shape_witness :
  let T := "Facility Amount: EUR 150,000,000" in
  "EUR 150,000,000" = "Not detected"
  \/ exists ccy sp amt,
       "EUR 150,000,000" = ccy ++ String sp amt
       /\ String.length ccy = 3 /\ all is_letter ccy = true
       /\ Str.is_space sp = true
       /\ amt <> "" /\ all amount_char amt = true.
Proof.
  intros T. apply (facility_amount_shape T). reflexivity.
Defined.

(** X12.  The margin that [extract_key_terms] stores is "Not detected" or a
    non-empty run of digits and periods, optional whitespace, a percent
    sign, optional whitespace and the words "per annum" in some letter
    case. *)
Theorem margin_shape (T v : string) :
  Dict.get (extract_key_terms T) "margin" = Some v ->
  v = "Not detected"
  \/ exists rate ws1 ws2 pa,
       v = rate ++ ws1 ++ "%" ++ ws2 ++ pa
       /\ rate <> "" /\ all rate_char rate = true
       /\ all Str.is_space ws1 = true /\ all Str.is_space ws2 = true
       /\ same_ci pa "per annum".
Proof.
  intros Hv.
  destruct (stored_value _ margin_pattern _ _ ltac:(simpl; auto) Hv)
    as [->|(pre & suf & g & _ & Hm & ->)]; [now left | right].
  destruct (margin_group _ _ Hm)
    as (rate & ws1 & ws2 & pa & -> & Hne & Hrate & Hw1 & Hw2 & Hpa).
  exists rate, ws1, ws2, pa. repeat split; auto.
  apply strip_id.
  destruct (lower_split pa "per annu" "m" Hpa) as (x & y & -> & _ & Hy).
  destruct y as [|c [|d y]]; try discriminate.
  simpl in Hy. injection Hy as Hc.
  replace (rate ++ ws1 ++ "%" ++ ws2 ++ x ++ String c "")
    with (rate ++ (ws1 ++ "%" ++ ws2 ++ x) ++ String c "")
    by now rewrite !append_assoc.
  apply (trimmed_ends rate_char
           (fun c => (Str.lower_char c =? "m")%char));
    auto using rate_not_space, letter_m_not_space; [discriminate|].
  simpl. now rewrite Hc.
Qed.

Lemma margin_shape_witness :
  let T := "Interest Margin: 2.50 % Per Annum" in
  "2.50 % Per Annum" = "Not detected"
  \/ exists rate ws1 ws2 pa,
       "2.50 % Per Annum" = rate ++ ws1 ++ "%" ++ ws2 ++ pa
       /\ rate <> "" /\ all rate_char rate = true
       /\ all Str.is_space ws1 = true /\ all Str.is_space ws2 = true
       /\ same_ci pa "per annum".
Proof.
  intros T. apply (margin_shape T). reflexivity.
Defined.

(** X13.  The maturity date that [extract_key_terms] stores is
    "Not detected" or one or two digits, whitespace, a non-empty run of word
    characters, whitespace and four digits. *)
Theorem maturity_date_shape (T v : string) :
  Dict.get (extract_key_terms T) "maturity_date" = Some v ->
  v = "Not detected"
  \/ exists day ws1 month ws2 year,
       v = day ++ ws1 ++ month ++ ws2 ++ year
       /\ 1 <= String.length day <= 2 /\ all is_digit day = true
       /\ ws1 <> "" /\ all Str.is_space ws1 = true
       /\ month <> "" /\ all word_char month = true
       /\ ws2 <> "" /\ all Str.is_space ws2 = true
       /\ String.length year = 4 /\ all is_digit year = true.
Proof.
  intros Hv.
  destruct (stored_value _ maturity_pattern _ _ ltac:(simpl; auto) Hv)
    as [->|(pre & suf & g & _ & Hm & ->)]; [now left | right].
  destruct (maturity_group _ _ Hm)
    as (day & ws1 & month & ws2 & year & -> & Hd & Hday & H1 & Hw1 & H2
        & Hmonth & H3 & Hw2 & Hy & Hyear).
  exists day, ws1, month, ws2, year. repeat split; auto; try lia.
  apply strip_id.
  replace (day ++ ws1 ++ month ++ ws2 ++ year)
    with (day ++ (ws1 ++ month ++ ws2) ++ year)
    by now rewrite !append_assoc.
  apply (trimmed_ends is_digit is_digit);
    eauto using digit_not_space, nonempty_of_length.
  destruct day; [simpl in Hd; lia | discriminate].
Qed.

Lemma maturity_date_shape_witness :
  let T := "Maturity Date: 31 March 2028" in
  "31 March 2028" = "Not detected"
  \/ exists day ws1 month ws2 year,
       "31 March 2028" = day ++ ws1 ++ month ++ ws2 ++ year
       /\ 1 <= String.length day <= 2 /\ all is_digit day = true
       /\ ws1 <> "" /\ all Str.is_space ws1 = true
       /\ month <> "" /\ all word_char month = true
       /\ ws2 <> "" /\ all Str.is_space ws2 = true
       /\ String.length year = 4 /\ all is_digit year = true.
Proof.
  intros T. apply (maturity_date_shape T). reflexivity.
Defined.

Section LineFacts.

Lemma run_of_spec (f : ascii -> bool) (s : string) :
  exists rest,
    s = run_of f s ++ rest /\ all f (run_of f s) = true
    /\ not_followed_by f rest.
Proof.
  induction s as [|c s (rest & Hs & Hall & Hend)]; simpl.
  - exists "". repeat split.
  - destruct (f c) eqn:E.
    + exists rest. simpl. rewrite E, Hall, <- Hs. repeat split. exact Hend.
    + exists (String c s). repeat split. exact E.
Qed.

(** A repetition without upper bound, followed by a rest of the pattern
    that cannot fail, takes the longest run there is. *)
Lemma rep_to_end (test : ascii -> bool) lo k (F : capture -> string)
    n (s : string) st :
  (forall s st, k s st = Some (F st)) ->
  rep test lo None k n s st
  = if (lo <=? n + String.length (run_of test s))%nat
    then Some (F (consume_all (run_of test s) st))
    else None.
Proof.
  intros Hk. revert n st; induction s as [|c s IH]; intros n st.
  - simpl. rewrite Nat.add_0_r, Hk. reflexivity.
  - cbn [rep run_of under andb]. destruct (test c) eqn:E.
    + rewrite IH. cbn [String.length consume_all].
      rewrite Nat.add_succ_comm.
      destruct (Nat.leb_spec lo (n + S (String.length (run_of test s))));
        [reflexivity|].
      destruct (Nat.leb_spec lo n); [lia | reflexivity].
    + cbn [String.length consume_all]. rewrite Nat.add_0_r, Hk. reflexivity.
Qed.

(** The group of a pattern [label\s*(.+)] is what is left of a line. *)
Lemma line_group (l s g : string) :
  match_here IGNORECASE
    (lit l ++ [star Space; GroupOpen; plus AnyChar; GroupClose])%list
    s no_capture = Some g ->
  exists mid ws rest,
    s = mid ++ ws ++ g ++ rest
    /\ same_ci mid l /\ all Str.is_space ws = true
    /\ g <> "" /\ all not_newline g = true
    /\ not_followed_by not_newline rest.
Proof.
  intros H.
  apply match_lit_sound in H. destruct H as (mid & r0 & -> & Hmid & H).
  rewrite consume_all_text in H. cbn [is_open no_capture] in H.
  unfold star, plus in H. cbn [match_here] in H.
  apply rep_sound in H; [|exact I].
  destruct H as (ws & r1 & -> & Hws & _ & _ & H).
  rewrite (rep_to_end _ _ _
             (fun st => text {| is_open := false; text := text st |}))
    in H by reflexivity.
  destruct (1 <=? 0 + String.length (run_of (atom_test IGNORECASE AnyChar) r1))%nat
    eqn:E; [|discriminate].
  injection H as <-. rewrite consume_all_text. cbn [is_open text append].
  apply Nat.leb_le in E.
  destruct (run_of_spec (atom_test IGNORECASE AnyChar) r1)
    as (rest & Hr1 & Hall & Hend).
  exists mid, ws, rest. repeat split; auto.
  - now rewrite <- Hr1.
  - intros E0. rewrite E0 in E. simpl in E. lia.
Qed.

Lemma contains_any_extend (t pre post : string) (ks : list string) :
  contains_any t ks = true -> contains_any (pre ++ t ++ post) ks = true.
Proof.
  intros Hc. apply contains_any_spec in Hc.
  destruct Hc as (k & Hk & Ho). apply contains_any_spec.
  exists k. split; [exact Hk|]. now apply occurs_ci_extend.
Qed.

End LineFacts.

(** X14.  The borrower and the purpose that [extract_key_terms] stores never
    contain a line break.  Each is "Not detected" or what is left of one
    line of the text, up to the end of that line, with the whitespace at
    both ends removed. *)
Theorem remainder_of_line (T k v : string) :
  k = "borrower" \/ k = "purpose" ->
  Dict.get (extract_key_terms T) k = Some v ->
  all not_newline v = true
  /\ (v = "Not detected"
      \/ exists pre line post,
           T = pre ++ line ++ post
           /\ line <> "" /\ all not_newline line = true
           /\ not_followed_by not_newline post
           /\ v = Str.strip line).
Proof.
  intros Hk Hv.
  assert (Hs : v = "Not detected"
               \/ exists l pre suf g,
                    T = pre ++ suf
                    /\ match_here IGNORECASE
                         (lit l ++ [star Space; GroupOpen; plus AnyChar;
                                    GroupClose])%list suf no_capture = Some g
                    /\ v = Str.strip g).
  { destruct Hk as [-> | ->].
    - destruct (stored_value _ borrower_pattern _ _ ltac:(simpl; auto 10) Hv)
        as [->|(pre & suf & g & H)]; [now left | right].
      now exists "Borrower:", pre, suf, g.
    - destruct (stored_value _ purpose_pattern _ _ ltac:(simpl; auto 10) Hv)
        as [->|(pre & suf & g & H)]; [now left | right].
      now exists "Purpose:", pre, suf, g. }
  destruct Hs as [->|(l & pre & suf & g & -> & Hm & ->)].
  - split; [reflexivity | now left].
  - destruct (line_group _ _ _ Hm)
      as (mid & ws & rest & -> & _ & _ & Hne & Hall & Hend).
    split.
    + destruct (strip_spec g) as (a & b & Hg & _).
      rewrite Hg, !all_append in Hall.
      apply andb_true_iff in Hall. destruct Hall as [_ Hall].
      apply andb_true_iff in Hall. tauto.
    + right. exists (pre ++ mid ++ ws), g, rest.
      repeat split; auto. now rewrite !append_assoc.
Qed.

Lemma remainder_of_line_witness :
  let T := "Borrower: GreenTech Energy Ltd.  " ++ String "010" "Purpose: x" in
  all not_newline "GreenTech Energy Ltd." = true.
Proof.
  intros T.
  apply (proj1 (remainder_of_line T "borrower" "GreenTech Energy Ltd."
                  (or_introl eq_refl) eq_refl)).
Defined.

(** ** [extract_text_from_pdf] and the upload *)

Section PageFacts.

Lemma concat_occurs (sep x : string) (xs : list string) :
  In x xs -> occurs x (String.concat sep xs).
Proof.
  induction xs as [|y xs IH]; [contradiction|].
  intros [->|Hin].
  - destruct xs as [|z xs]; simpl.
    + exists "", "". now rewrite append_empty_r.
    + now exists "", (sep ++ String.concat sep (z :: xs)).
  - destruct xs as [|z xs]; [contradiction|].
    destruct (IH Hin) as (pre & post & E).
    exists (y ++ sep ++ pre), post.
    change (String.concat sep (y :: z :: xs))
      with (y ++ sep ++ String.concat sep (z :: xs)).
    rewrite E. now rewrite !append_assoc.
Qed.

End PageFacts.

(** X15.  The text of a document is empty when it has no page, a page
    without text counts as an empty page, and the text of every page stands
    in the text of the document as it is; so a keyword found on one page is
    found in the document, and a check that passes on a page of the second
    upload passes in the result of the analysis. *)
Theorem page_text_kept (pages : list (option string)) (page : option string) :
  extract_text_from_pdf [] = ""
  /\ extract_text_from_pdf pages
     = extract_text_from_pdf (map (fun p => Some (py_or p "")) pages)
  /\ (In page pages ->
      occurs (py_or page "") (extract_text_from_pdf pages)
      /\ (forall ks,
            contains_any (py_or page "") ks = true ->
            contains_any (extract_text_from_pdf pages) ks = true)
      /\ forall pages_v1,
           Forall2 (fun r r' => passed r = true -> passed r' = true)
             (run_esg_checks (py_or page ""))
             (esg_checks (analyze_uploads pages_v1 pages))).
Proof.
  split; [reflexivity|]. split.
  - unfold extract_text_from_pdf. rewrite map_map. f_equal.
    apply map_ext. intros [[|c s]|]; reflexivity.
  - intros Hin.
    assert (Ho : occurs (py_or page "") (extract_text_from_pdf pages)).
    { apply concat_occurs.
      exact (in_map (fun p => py_or p "") pages page Hin). }
    split; [exact Ho|].
    destruct Ho as (pre & post & E).
    assert (Hc : forall ks,
               contains_any (py_or page "") ks = true ->
               contains_any (extract_text_from_pdf pages) ks = true).
    { intros ks H. rewrite E. now apply contains_any_extend. }
    split; [exact Hc|].
    intros pages_v1. unfold analyze_uploads, analyze_docs. cbn [esg_checks].
    unfold run_esg_checks. repeat (constructor; [apply Hc|]). constructor.
Qed.

Lemma page_text_kept_witness :
  let pages := [Some "Facility Agreement"; None; Some "Annual report due"] in
  In (Some "Annual report due") pages
  /\ contains_any (extract_text_from_pdf pages) ["annual report"] = true.
Proof.
  intros pages.
  assert (H : In (Some "Annual report due") pages) by (simpl; auto).
  split; [exact H|].
  apply (proj1 (proj2 (proj2 (proj2 (page_text_kept pages _)) H))).
  reflexivity.
Defined.

(** ** Well-formed terms are found *)

Section Recovery.

Lemma find_first_skip (l : string) (p : pattern) (front T : string) :
  none_before l (front ++ T) (String.length front) ->
  find_first (lit l ++ p)%list (front ++ T) = find_first (lit l ++ p)%list T.
Proof.
  intros Hnone. unfold find_first. rewrite search_skip; [reflexivity|].
  intros pre suf Hfront Hne.
  destruct (match_here IGNORECASE (lit l ++ p)%list (suf ++ T) no_capture)
    as [g|] eqn:E; [exfalso | reflexivity].
  apply match_lit_inv in E.
  destruct E as (mid & rest & _ & Hsplit & Hci & _).
  assert (Hlen : String.length front <= String.length pre).
  { apply (Hnone pre mid rest); [|exact Hci].
    now rewrite Hfront, append_assoc, Hsplit. }
  rewrite Hfront, length_append in Hlen.
  destruct suf; [congruence | simpl in Hlen; lia].
Qed.

Lemma find_first_here (p : pattern) (T g : string) :
  match_here IGNORECASE p T no_capture = Some g ->
  find_first p T = Some (Str.strip g).
Proof.
  intros H. unfold find_first.
  destruct T; simpl; now rewrite H.
Qed.

(** A text that starts with a run of class [h] does not go on with a
    character of class [f] when the two classes are apart. *)
Lemma starts_apart (f h : ascii -> bool) (a s : string) :
  (forall c, h c = true -> f c = false) ->
  a <> "" -> all h a = true -> not_followed_by f (a ++ s).
Proof.
  intros Hfh Hne Ha. destruct a as [|c a]; [congruence|].
  simpl in *. apply andb_true_iff in Ha. now apply Hfh.
Qed.

End Recovery.

Section FacilityRecovery.

Variables (lab ws ccy amt rest : string) (sp : ascii).
Hypothesis label_ok : same_ci lab "Facility Amount:".
Hypothesis ws_ok : all Str.is_space ws = true.
Hypothesis ccy_length : String.length ccy = 3.
Hypothesis ccy_ok : all is_letter ccy = true.
Hypothesis sp_ok : Str.is_space sp = true.
Hypothesis amt_some : amt <> "".
Hypothesis amt_ok : all amount_char amt = true.
Hypothesis amt_ends : not_followed_by amount_char rest.

Lemma facility_amount_line_match :
  match_here IGNORECASE facility_amount_pattern
    (lab ++ ws ++ ccy ++ String sp amt ++ rest) no_capture
  = Some (ccy ++ String sp amt).
Proof.
  unfold facility_amount_pattern.
  rewrite match_lit_app by exact label_ok.
  rewrite consume_all_text. cbn [is_open no_capture].
  unfold star, times, one, plus. cbn [match_here].
  apply rep_greedy; [exact ws_ok | exact I | right | lia |].
  { apply (starts_apart _ is_letter); auto using letter_not_space.
    now apply (nonempty_of_length ccy 2). }
  apply rep_greedy;
    [ now rewrite (all_ext _ _ ccy letter_test)
    | rewrite ccy_length; simpl; lia
    | left; rewrite ccy_length; reflexivity
    | rewrite ccy_length; simpl; lia |].
  apply (rep_greedy _ _ _ _ (String sp "") (amt ++ rest));
    [ simpl; now rewrite sp_ok | simpl; lia | left; reflexivity
    | simpl; lia |].
  apply rep_greedy;
    [ now rewrite (all_ext _ _ amt amount_char_test) | exact I
    | right; now apply amount_run_ends
    | destruct amt; [congruence | simpl; lia] |].
  rewrite !consume_all_text. cbn [is_open text].
  simpl. now rewrite append_assoc.
Qed.

End FacilityRecovery.

Section LineRecovery.

Variables (l lab ws line rest : string).
Hypothesis label_ok : same_ci lab l.
Hypothesis ws_ok : all Str.is_space ws = true.
Hypothesis line_some : line <> "".
Hypothesis line_starts : not_followed_by Str.is_space line.
Hypothesis line_ok : all not_newline line = true.
Hypothesis line_ends : not_followed_by not_newline rest.

Lemma line_match :
  match_here IGNORECASE
    (lit l ++ [star Space; GroupOpen; plus AnyChar; GroupClose])%list
    (lab ++ ws ++ line ++ rest) no_capture
  = Some line.
Proof.
  rewrite match_lit_app by exact label_ok.
  rewrite consume_all_text. cbn [is_open no_capture].
  unfold star, plus. cbn [match_here].
  apply rep_greedy; [exact ws_ok | exact I | right | lia |].
  { destruct line; [congruence | exact line_starts]. }
  apply rep_greedy;
    [ exact line_ok | exact I | right; exact line_ends
    | destruct line; [congruence | simpl; lia] |].
  rewrite consume_all_text. reflexivity.
Qed.

Lemma strip_line_some : Str.strip line <> "".
Proof.
  unfold Str.strip. destruct line as [|c s]; [congruence|].
  simpl in *. rewrite line_starts. simpl.
  destruct (Str.rstrip s); [rewrite line_starts|]; discriminate.
Qed.

End LineRecovery.

Lemma py_or_some (x d : string) : x <> "" -> py_or (Some x) d = x.
Proof. destruct x; [congruence | reflexivity]. Qed.

(** X16.  A facility amount written as the pattern expects is found: when
    the text has, at the first occurrence of the label "Facility Amount:"
    (in any letter case), optional whitespace, three letters, a whitespace
    character and a run of digits, commas and periods that ends there, then
    [extract_key_terms] stores exactly the letters, the whitespace character
    and the run. *)
Theorem facility_amount_recovered
    (front lab ws ccy amt rest : string) (sp : ascii) :
  let T := front ++ lab ++ ws ++ ccy ++ String sp amt ++ rest in
  none_before "Facility Amount:" T (String.length front) ->
  same_ci lab "Facility Amount:" ->
  all Str.is_space ws = true ->
  String.length ccy = 3 -> all is_letter ccy = true ->
  Str.is_space sp = true ->
  amt <> "" -> all amount_char amt = true ->
  not_followed_by amount_char rest ->
  Dict.get (extract_key_terms T) "facility_amount"
  = Some (ccy ++ String sp amt).
Proof.
  intros T Hnone Hlab Hws Hlen Hccy Hsp Hne Hamt Hend. subst T.
  unfold extract_key_terms. cbn [Dict.get]. rewrite String.eqb_refl.
  unfold facility_amount_pattern at 1. rewrite find_first_skip by exact Hnone.
  fold facility_amount_pattern.
  rewrite (find_first_here _ _ (ccy ++ String sp amt))
    by now apply facility_amount_line_match.
  rewrite strip_id.
  - rewrite py_or_some; [reflexivity|].
    destruct ccy; [discriminate Hlen | discriminate].
  - apply (trimmed_ends is_letter amount_char ccy (String sp "") amt);
      eauto using letter_not_space, amount_not_space, nonempty_of_length.
Qed.

Lemma facility_amount_recovered_witness :
  let T := "Summary. " ++ "FACILITY AMOUNT:" ++ "  " ++ "usd"
           ++ String " " "2,500.75" ++ " in total" in
  Dict.get (extract_key_terms T) "facility_amount" = Some "usd 2,500.75".
Proof.
  intros T.
  apply (facility_amount_recovered "Summary. " "FACILITY AMOUNT:" "  " "usd"
           "2,500.75" " in total" " ");
    try reflexivity; [|discriminate].
  apply none_beforeb_sound. reflexivity.
Defined.

(** X17.  A borrower or purpose line is found: when the text has, at the
    first occurrence of the label (in any letter case), optional whitespace
    and then a non-empty rest of a line that does not start with
    whitespace, [extract_key_terms] stores that rest of the line with the
    whitespace at its end removed. *)
Theorem line_recovered (k l front lab ws line rest : string) :
  let T := front ++ lab ++ ws ++ line ++ rest in
  (k = "borrower" /\ l = "Borrower:") \/ (k = "purpose" /\ l = "Purpose:") ->
  none_before l T (String.length front) ->
  same_ci lab l ->
  all Str.is_space ws = true ->
  line <> "" -> not_followed_by Str.is_space line ->
  all not_newline line = true ->
  not_followed_by not_newline rest ->
  Dict.get (extract_key_terms T) k = Some (Str.strip line)
  /\ Str.strip line = Str.rstrip line.
Proof.
  intros T Hk Hnone Hlab Hws Hne Hstart Hline Hend. subst T.
  assert (Hf : find_first
                 (lit l ++ [star Space; GroupOpen; plus AnyChar; GroupClose])%list
                 (front ++ lab ++ ws ++ line ++ rest)
               = Some (Str.strip line)).
  { rewrite find_first_skip by exact Hnone.
    apply find_first_here. now apply line_match. }
  split.
  - destruct Hk as [[-> ->] | [-> ->]];
      unfold extract_key_terms; cbn [Dict.get]; simpl String.eqb;
      unfold borrower_pattern, purpose_pattern; rewrite Hf;
      now rewrite py_or_some by now apply strip_line_some.
  - unfold Str.strip. destruct line as [|c s]; [reflexivity|].
    simpl in Hstart. simpl Str.lstrip. now rewrite Hstart.
Qed.

Lemma line_recovered_witness :
  let T := "Parties. " ++ "borrower:" ++ " " ++ "GreenTech Energy Ltd.  "
           ++ String "010" "Lender: Bank" in
  Dict.get (extract_key_terms T) "borrower" = Some "GreenTech Energy Ltd.".
Proof.
  intros T.
  refine (proj1 (line_recovered "borrower" "Borrower:" "Parties. " "borrower:"
                   " " "GreenTech Energy Ltd.  "
                   (String "010" "Lender: Bank") _ _ _ _ _ _ _ _));
    try reflexivity.
  - left. split; reflexivity.
  - apply none_beforeb_sound. reflexivity.
  - discriminate.
Defined.

Section SameTerms.

Lemma compare_terms_nil (v1 v2 : Dict.dict) :
  compare_terms v1 v2 = [] ->
  forall f, In f (Dict.keys v1) -> Dict.get v1 f = Dict.get v2 f.
Proof.
  rewrite compare_terms_eq. intros H f Hf. apply map_eq_nil in H.
  destruct (py_eq (Dict.get v1 f) (Dict.get v2 f)) eqn:E;
    [now apply py_eq_spec|].
  assert (Hin : In f (filter (differs v1 v2) (Dict.keys v1))).
  { apply filter_In. split; [exact Hf|]. unfold differs. now rewrite E. }
  rewrite H in Hin. contradiction.
Qed.

Lemma compare_terms_refl (v : Dict.dict) : compare_terms v v = [].
Proof.
  rewrite compare_terms_eq.
  replace (filter (differs v v) (Dict.keys v)) with (@nil string);
    [reflexivity|].
  symmetry. induction (Dict.keys v) as [|k ks IH]; simpl; [reflexivity|].
  unfold differs at 1. now rewrite (proj2 (py_eq_spec _ _) eq_refl).
Qed.

End SameTerms.

(** X18.  [analyze_docs] reports no change exactly when the key terms it
    extracted from the two texts are the same; in particular for a text
    compared with itself. *)
Theorem analyze_docs_no_change (text_v1 text_v2 : string) :
  (changes (analyze_docs text_v1 text_v2) = [] <->
   key_terms_v1 (analyze_docs text_v1 text_v2)
   = key_terms_v2 (analyze_docs text_v1 text_v2))
  /\ changes (analyze_docs text_v1 text_v1) = [].
Proof.
  unfold analyze_docs. cbn [changes key_terms_v1 key_terms_v2].
  split; [split|apply compare_terms_refl].
  - intros H.
    pose proof (compare_terms_nil _ _ H) as G.
    unfold extract_key_terms in *. cbn [Dict.keys map fst] in G.
    pose proof (G "facility_amount" ltac:(simpl; auto 10)) as G1.
    pose proof (G "margin" ltac:(simpl; auto 10)) as G2.
    pose proof (G "maturity_date" ltac:(simpl; auto 10)) as G3.
    pose proof (G "borrower" ltac:(simpl; auto 10)) as G4.
    pose proof (G "purpose" ltac:(simpl; auto 10)) as G5.
    cbn [Dict.get] in G1, G2, G3, G4, G5. simpl String.eqb in *.
    congruence.
  - intros ->. apply compare_terms_refl.
Qed.

Lemma analyze_docs_no_change_witness :
  let a := "Borrower: GreenTech" in
  let b := "Re: BORROWER:  GreenTech " in
  key_terms_v1 (analyze_docs a b) = key_terms_v2 (analyze_docs a b)
  /\ changes (analyze_docs a b) = [].
Proof.
  intros a b.
  assert (H : key_terms_v1 (analyze_docs a b)
              = key_terms_v2 (analyze_docs a b)) by reflexivity.
  split; [exact H|]. exact (proj2 (proj1 (analyze_docs_no_change a b)) H).
Defined.

Section MoreRecovery.

Lemma apart_sym (f h : ascii -> bool) :
  (forall c, f c = true -> h c = false) ->
  forall c, h c = true -> f c = false.
Proof.
  intros H c Hc. destruct (f c) eqn:E; [|reflexivity].
  rewrite (H c E) in Hc. discriminate.
Qed.

Lemma word_not_space (c : ascii) :
  word_char c = true -> Str.is_space c = false.
Proof.
  destruct c as [[] [] [] [] [] [] [] []]; vm_compute; congruence.
Qed.

Lemma letter_p_not_space (c : ascii) :
  (Str.lower_char c =? "p")%char = true -> Str.is_space c = false.
Proof.
  destruct c as [[] [] [] [] [] [] [] []]; vm_compute; congruence.
Qed.

Lemma starts_apart_or (f h : ascii -> bool) (a s : string) :
  (forall c, h c = true -> f c = false) ->
  all h a = true -> not_followed_by f s -> not_followed_by f (a ++ s).
Proof.
  intros Hfh Ha Hs. destruct a as [|c a]; [exact Hs|].
  simpl in *. apply andb_true_iff in Ha. now apply Hfh.
Qed.

Lemma nonempty_length (a : string) : a <> "" -> 1 <= String.length a.
Proof. destruct a; [congruence | simpl; lia]. Qed.

(** A text that is "per annum" up to case starts with "p" and ends with "m"
    up to case. *)
Lemma per_annum_ends (pa : string) :
  same_ci pa "per annum" ->
  (exists c y, pa = String c y /\ (Str.lower_char c =? "p")%char = true)
  /\ exists x c, pa = x ++ String c ""
                 /\ (Str.lower_char c =? "m")%char = true.
Proof.
  intros H. split.
  - destruct pa as [|c y]; [discriminate|]. exists c, y. split; [reflexivity|].
    injection H as Hc _. now rewrite Hc.
  - destruct (lower_split pa "per annu" "m" H) as (x & y & -> & _ & Hy).
    destruct y as [|c [|d y]]; try discriminate.
    exists x, c. split; [reflexivity|].
    injection Hy as Hc. now rewrite Hc.
Qed.

Variables (lab ws ws1 ws2 rest : string).
Hypothesis ws_ok : all Str.is_space ws = true.
Hypothesis ws1_ok : all Str.is_space ws1 = true.
Hypothesis ws2_ok : all Str.is_space ws2 = true.

Section Margin.

Variables (rate pa : string).
Hypothesis label_ok : same_ci lab "Interest Margin:".
Hypothesis rate_some : rate <> "".
Hypothesis rate_ok : all rate_char rate = true.
Hypothesis pa_ok : same_ci pa "per annum".

Lemma margin_line_match :
  match_here IGNORECASE margin_pattern
    (lab ++ ws ++ rate ++ ws1 ++ "%" ++ ws2 ++ pa ++ rest) no_capture
  = Some (rate ++ ws1 ++ "%" ++ ws2 ++ pa).
Proof.
  unfold margin_pattern.
  rewrite match_lit_app by exact label_ok.
  rewrite consume_all_text. cbn [is_open no_capture].
  unfold star, times, one, plus. cbn [match_here app].
  apply rep_greedy; [exact ws_ok | exact I | right | lia |].
  { apply (starts_apart _ rate_char); auto using rate_not_space. }
  apply rep_greedy;
    [ now rewrite (all_ext _ _ rate rate_test) | exact I | right
    | pose proof (nonempty_length _ rate_some); lia |].
  { apply (starts_apart_or _ Str.is_space); [|exact ws1_ok|reflexivity].
    intros c Hc. rewrite rate_test.
    now apply (apart_sym _ _ rate_not_space). }
  apply rep_greedy; [exact ws1_ok | exact I | right; reflexivity | lia |].
  apply (rep_greedy _ _ _ _ "%" (ws2 ++ pa ++ rest));
    [reflexivity | simpl; lia | left; reflexivity | simpl; lia |].
  apply rep_greedy; [exact ws2_ok | exact I | right | lia |].
  { destruct (proj1 (per_annum_ends pa pa_ok)) as (c & y & -> & Hc).
    simpl. now apply letter_p_not_space. }
  rewrite match_lit_app by exact pa_ok.
  cbn [match_here]. rewrite !consume_all_text. cbn [is_open text].
  simpl. now rewrite !append_assoc.
Qed.

Lemma margin_trimmed : trimmed (rate ++ ws1 ++ "%" ++ ws2 ++ pa).
Proof.
  destruct (proj2 (per_annum_ends pa pa_ok)) as (x & c & -> & Hc).
  replace (rate ++ ws1 ++ "%" ++ ws2 ++ x ++ String c "")
    with (rate ++ (ws1 ++ "%" ++ ws2 ++ x) ++ String c "")
    by now rewrite !append_assoc.
  apply (trimmed_ends rate_char
           (fun c => (Str.lower_char c =? "m")%char));
    auto using rate_not_space, letter_m_not_space; [discriminate|].
  simpl. now rewrite Hc.
Qed.

End Margin.

Section Maturity.

Variables (day month year : string).
Hypothesis label_ok : same_ci lab "Maturity Date:".
Hypothesis day_length : 1 <= String.length day <= 2.
Hypothesis day_ok : all is_digit day = true.
Hypothesis ws1_some : ws1 <> "".
Hypothesis month_some : month <> "".
Hypothesis month_ok : all word_char month = true.
Hypothesis ws2_some : ws2 <> "".
Hypothesis year_length : String.length year = 4.
Hypothesis year_ok : all is_digit year = true.

Lemma maturity_line_match :
  match_here IGNORECASE maturity_pattern
    (lab ++ ws ++ day ++ ws1 ++ month ++ ws2 ++ year ++ rest) no_capture
  = Some (day ++ ws1 ++ month ++ ws2 ++ year).
Proof.
  assert (day_some : day <> "") by (destruct day; [simpl in *; lia | discriminate]).
  unfold maturity_pattern.
  rewrite match_lit_app by exact label_ok.
  rewrite consume_all_text. cbn [is_open no_capture].
  unfold star, times, one, plus. cbn [match_here].
  apply rep_greedy; [exact ws_ok | exact I | right | lia |].
  { apply (starts_apart _ is_digit); auto using digit_not_space. }
  apply rep_greedy;
    [ now rewrite (all_ext _ _ day digit_test) | simpl; lia | right
    | simpl; lia |].
  { apply (starts_apart _ Str.is_space); auto.
    intros c Hc. rewrite digit_test.
    now apply (apart_sym _ _ digit_not_space). }
  apply rep_greedy;
    [ exact ws1_ok | exact I | right
    | pose proof (nonempty_length _ ws1_some); lia |].
  { apply (starts_apart _ word_char); auto using word_not_space. }
  apply rep_greedy;
    [ exact month_ok | exact I | right
    | pose proof (nonempty_length _ month_some); lia |].
  { apply (starts_apart _ Str.is_space); auto.
    apply (apart_sym _ _ word_not_space). }
  apply rep_greedy;
    [ exact ws2_ok | exact I | right
    | pose proof (nonempty_length _ ws2_some); lia |].
  { apply (starts_apart _ is_digit); auto using digit_not_space.
    now apply (nonempty_of_length year 3). }
  apply rep_greedy;
    [ now rewrite (all_ext _ _ year digit_test)
    | rewrite year_length; simpl; lia
    | left; rewrite year_length; reflexivity
    | rewrite year_length; simpl; lia |].
  rewrite !consume_all_text. cbn [is_open text].
  simpl. now rewrite !append_assoc.
Qed.

Lemma maturity_trimmed : trimmed (day ++ ws1 ++ month ++ ws2 ++ year).
Proof.
  replace (day ++ ws1 ++ month ++ ws2 ++ year)
    with (day ++ (ws1 ++ month ++ ws2) ++ year)
    by now rewrite !append_assoc.
  apply (trimmed_ends is_digit is_digit);
    eauto using digit_not_space, nonempty_of_length.
  destruct day; [simpl in *; lia | discriminate].
Qed.

End Maturity.

End MoreRecovery.

(** X19.  A margin written as the pattern expects is found: when the text
    has, at the first occurrence of the label "Interest Margin:" (in any
    letter case), optional whitespace, a run of digits and periods, optional
    whitespace, a percent sign, optional whitespace and the words
    "per annum" in some letter case, [extract_key_terms] stores the text
    from the run to those words, whatever follows. *)
Theorem margin_recovered (front lab ws rate ws1 ws2 pa rest : string) :
  let T := front ++ lab ++ ws ++ rate ++ ws1 ++ "%" ++ ws2 ++ pa ++ rest in
  none_before "Interest Margin:" T (String.length front) ->
  same_ci lab "Interest Margin:" ->
  all Str.is_space ws = true ->
  rate <> "" -> all rate_char rate = true ->
  all Str.is_space ws1 = true -> all Str.is_space ws2 = true ->
  same_ci pa "per annum" ->
  Dict.get (extract_key_terms T) "margin"
  = Some (rate ++ ws1 ++ "%" ++ ws2 ++ pa).
Proof.
  intros T Hnone Hlab Hws Hne Hrate Hw1 Hw2 Hpa. subst T.
  unfold extract_key_terms. cbn [Dict.get]. simpl String.eqb.
  unfold margin_pattern at 1. rewrite find_first_skip by exact Hnone.
  fold margin_pattern.
  rewrite (find_first_here _ _ (rate ++ ws1 ++ "%" ++ ws2 ++ pa))
    by now apply margin_line_match.
  rewrite strip_id by now apply margin_trimmed.
  rewrite py_or_some; [reflexivity|]. destruct rate; [congruence|discriminate].
Qed.

Lemma margin_recovered_witness :
  let T := "Terms: " ++ "Interest margin:" ++ " " ++ "2.50" ++ " " ++ "%"
           ++ "" ++ "PER ANNUM" ++ ", payable quarterly" in
  Dict.get (extract_key_terms T) "margin" = Some "2.50 %PER ANNUM".
Proof.
  intros T.
  apply (margin_recovered "Terms: " "Interest margin:" " " "2.50" " " ""
           "PER ANNUM" ", payable quarterly");
    try reflexivity; [|discriminate].
  apply none_beforeb_sound. reflexivity.
Defined.

(** X20.  A maturity date written as the pattern expects is found: when the
    text has, at the first occurrence of the label "Maturity Date:" (in any
    letter case), optional whitespace, one or two digits, whitespace, a run
    of word characters, whitespace and four digits, [extract_key_terms]
    stores the text from the first digit to the fourth digit of the year,
    whatever follows. *)
Theorem maturity_date_recovered
    (front lab ws day ws1 month ws2 year rest : string) :
  let T := front ++ lab ++ ws ++ day ++ ws1 ++ month ++ ws2 ++ year ++ rest in
  none_before "Maturity Date:" T (String.length front) ->
  same_ci lab "Maturity Date:" ->
  all Str.is_space ws = true ->
  1 <= String.length day <= 2 -> all is_digit day = true ->
  ws1 <> "" -> all Str.is_space ws1 = true ->
  month <> "" -> all word_char month = true ->
  ws2 <> "" -> all Str.is_space ws2 = true ->
  String.length year = 4 -> all is_digit year = true ->
  Dict.get (extract_key_terms T) "maturity_date"
  = Some (day ++ ws1 ++ month ++ ws2 ++ year).
Proof.
  intros T Hnone Hlab Hws Hd Hday H1 Hw1 Hm Hmonth H2 Hw2 Hy Hyear. subst T.
  unfold extract_key_terms. cbn [Dict.get]. simpl String.eqb.
  unfold maturity_pattern at 1. rewrite find_first_skip by exact Hnone.
  fold maturity_pattern.
  rewrite (find_first_here _ _ (day ++ ws1 ++ month ++ ws2 ++ year))
    by now apply maturity_line_match.
  rewrite strip_id by now apply maturity_trimmed.
  rewrite py_or_some; [reflexivity|].
  destruct day; [simpl in Hd; lia | discriminate].
Qed.

Lemma maturity_date_recovered_witness :
  let T := "" ++ "MATURITY DATE:" ++ "" ++ "1" ++ "  " ++ "April" ++ " "
           ++ "2030" ++ "5" in
  Dict.get (extract_key_terms T) "maturity_date" = Some "1  April 2030".
Proof.
  intros T.
  apply (maturity_date_recovered "" "MATURITY DATE:" "" "1" "  " "April" " "
           "2030" "5");
    try reflexivity; try discriminate; [|simpl; lia].
  apply none_beforeb_sound. reflexivity.
Defined.
